(** * A shallow embedding of the to-do list application (js/todos.js)

    The application is a Backbone program: a [Todo] model, a [TodoList]
    collection, a [TodoView] per item and one [AppView].  The embedding keeps
    the names of the source.  Stateful handlers are functions from the
    application state to the new state; what a handler reads from the page
    (the value of an input box, the key code of an event, the clock) is an
    argument.

    Conventions.
    - A JavaScript string is a [string]; its characters stand for the code
      units that [length], [slice] and [split] count.
    - A JavaScript number that holds an integer is a [Z]; [+ 1] on it is
      the addition of doubles ([JsNumber.plus_one]), which is exact on the
      safe integers and rounds beyond them.  Key codes are small integers.
    - A model is a heap object.  Its identity is its client id [cid], drawn
      from the framework's counter of unique ids. *)

From Stdlib Require Import List String Ascii ZArith Bool Lia Arith.
From Stdlib Require Import Sorting.Permutation Sorting.Sorted.
Import ListNotations.

#[local] Open Scope string_scope.
#[local] Open Scope Z_scope.
#[local] Open Scope list_scope.

(** ** JavaScript numbers that hold integers *)

Module JsNumber.

(** 2^53: up to here every integer is a double. *)
Definition two53 : Z := 9007199254740992.

(** [Number.isSafeInteger]: at most 2^53 - 1 in absolute value. *)
Definition isSafeInteger (n : Z) : bool :=
  (- (two53 - 1) <=? n) && (n <=? two53 - 1).

(** The double nearest to the integer [x], ties going to the even
    significand.  Below 2^53 it is [x]; from 2^53 on the doubles between
    2^e and 2^(e+1) are the multiples of 2^(e-52).  (No overflow: the orders
    are finite and far below the largest double.) *)
Definition nearest (x : Z) : Z :=
  let a := Z.abs x in
  if a <? two53 then x
  else
    let s := 2 ^ (Z.log2 a - 52) in
    let q := a / s in
    let r := a mod s in
    let q' :=
      if 2 * r <? s then q
      else if s <? 2 * r then q + 1
      else if Z.even q then q else q + 1 in
    Z.sgn x * (q' * s).

(** [n + 1] for a number [n] that holds an integer. *)
Definition plus_one (n : Z) : Z := nearest (n + 1).

End JsNumber.

(** ** JavaScript string primitives used by the source *)

Module JsString.

(** [s.split(sep)] for a separator of one character: the pieces of [s]
    between the occurrences of [sep]; the empty string gives one empty
    piece. *)
Fixpoint split (sep : ascii) (s : string) : list string :=
  match s with
  | EmptyString => [EmptyString]
  | String c r =>
      if Ascii.eqb c sep then EmptyString :: split sep r
      else match split sep r with
           | t :: ts => String c t :: ts
           | [] => [String c EmptyString]
           end
  end.

(** [a.join(sep)] on an array of strings. *)
Definition join (sep : string) (a : list string) : string :=
  String.concat sep a.

(** [s.slice(b, e)] for [0 <= b <= e]; an end beyond the string is
    clamped. *)
Definition slice (b e : nat) (s : string) : string :=
  String.substring b (e - b) s.

(** [s != ""] *)
Definition nonEmpty (s : string) : bool := negb (String.eqb s "").

(** No character of [s] is [c]. *)
Fixpoint free_of (c : ascii) (s : string) : Prop :=
  match s with
  | EmptyString => True
  | String a r => a <> c /\ free_of c r
  end.

End JsString.

(** ** The sanitizer of [TodoView] (todos.js, [sanitize]) *)

Module Sanitizer.
Import JsString.

(** The body of the callback given to [forEach]: [newTaskInfo] is the array
    built so far, [element] the current piece. *)
Definition visit (newTaskInfo : list string) (element : string)
  : list string :=
  if nonEmpty element then
    let element :=
      if (30 <? String.length element)%nat then slice 0 30 element
      else element in
    newTaskInfo ++ [element]
  else newTaskInfo.

Definition sanitize (taskInfo : string) : string :=
  let taskInfoArray := split " "%char taskInfo in
  let newTaskInfo := fold_left visit taskInfoArray [] in
  join " " newTaskInfo.

(** The sanitizer as the specification words it: split on single spaces,
    drop empty tokens, truncate any token longer than 30 characters to its
    first 30 characters, rejoin with single spaces. *)
Definition truncate30 (token : string) : string :=
  if (30 <? String.length token)%nat then String.substring 0 30 token
  else token.

(** The tokens that survive: the non-empty pieces, each cut to 30. *)
Definition tokens (text : string) : list string :=
  map truncate30 (filter nonEmpty (split " "%char text)).

Definition sanitize_spec (text : string) : string :=
  String.concat " " (tokens text).

End Sanitizer.

(** ** The model object: attributes and identity *)

Module Model.

(** The attributes of a todo item.  [createdAt] and [modifiedAt] are [null]
    ([None]) or the text of a date. *)
Record Attrs : Type := mkAttrs {
  title : string;
  order : Z;
  done : bool;
  createdAt : option string;
  modifiedAt : option string;
  taskInfo : string
}.

(** An attribute hash as passed to [save] or [create]: the keys it has. *)
Record Hash : Type := mkHash {
  title' : option string;
  order' : option Z;
  done' : option bool;
  createdAt' : option (option string);
  modifiedAt' : option (option string);
  taskInfo' : option string
}.

Definition empty : Hash := mkHash None None None None None None.

Definition or_else {A : Type} (given : option A) (old : A) : A :=
  match given with
  | Some v => v
  | None => old
  end.

(** The attributes [a] with the keys of [h] written over them. *)
Definition extend (h : Hash) (a : Attrs) : Attrs :=
  {| title := or_else (title' h) (title a);
     order := or_else (order' h) (order a);
     done := or_else (done' h) (done a);
     createdAt := or_else (createdAt' h) (createdAt a);
     modifiedAt := or_else (modifiedAt' h) (modifiedAt a);
     taskInfo := or_else (taskInfo' h) (taskInfo a) |}.

(** A model object. *)
Record t : Type := mk {
  cid : nat;
  attributes : Attrs
}.

(** [m.get(attr)] *)
Definition get {A : Type} (attr : Attrs -> A) (m : t) : A :=
  attr (attributes m).

(** Modelled from the spec: Backbone's [Model.save] is not among the sources.
    [m.save(h)] writes the keys of [h] over the attributes of [m] ("mutated in
    place") and persists the record; the store mirrors the collection and is
    not modelled. *)
Definition save (h : Hash) (m : t) : t :=
  {| cid := cid m; attributes := extend h (attributes m) |}.

End Model.

(** ** The collection (todos.js, [TodoList]) *)

Module TodoList.
Import Model.

Definition t : Type := list Model.t.

(** Modelled from the spec: Backbone's [Collection.where] is not among the
    sources.  [where({done: b})] keeps, in collection order, the models whose
    [done] attribute is [b]. *)
Definition where_done (b : bool) (c : t) : t :=
  filter (fun m => Bool.eqb (get done m) b) c.

Definition done (c : t) : t := where_done true c.

Definition remaining (c : t) : t := where_done false c.

(** [this.last()]: the model at the end of the collection, if any. *)
Fixpoint last (c : t) : option Model.t :=
  match c with
  | [] => None
  | [m] => Some m
  | _ :: r => last r
  end.

(** [nextOrder].  The second [None] branch is never taken: a collection of
    non-zero length has a last model. *)
Definition nextOrder (c : t) : Z :=
  if (List.length c =? 0)%nat then 1
  else match last c with
       | Some m => JsNumber.plus_one (get order m)
       | None => 1
       end.

(** Modelled from the spec: the framework's sort is not among the sources.
    With [comparator: 'order'] the collection is "always kept sorted by
    order"; the sort is stable, so models of equal order keep their relative
    position. *)
Fixpoint insert (m : Model.t) (c : t) : t :=
  match c with
  | [] => [m]
  | x :: r =>
      if get order m <=? get order x then m :: x :: r
      else x :: insert m r
  end.

Definition sortBy_order (c : t) : t := fold_right insert [] c.

(** Modelled from the spec: Backbone's [Collection.add] is not among the
    sources.  The model is appended and the collection sorted again. *)
Definition add (m : Model.t) (c : t) : t := sortBy_order (c ++ [m]).

(** Modelled from the spec: Backbone's [Collection.remove] is not among the
    sources.  The model of identity [k] is taken out; the others keep their
    positions. *)
Fixpoint remove (k : nat) (c : t) : t :=
  match c with
  | [] => []
  | m :: r => if (cid m =? k)%nat then r else m :: remove k r
  end.

(** The model of identity [k], if it is in the collection. *)
Fixpoint getByCid (k : nat) (c : t) : option Model.t :=
  match c with
  | [] => None
  | m :: r => if (cid m =? k)%nat then Some m else getByCid k r
  end.

(** A method [f] run on the model of identity [k]: the object is changed in
    place, so the collection sees the change at the model's position. *)
Definition update (k : nat) (f : Model.t -> Model.t) (c : t) : t :=
  map (fun m => if (cid m =? k)%nat then f m else m) c.

(** [this.each(f)] for a method [f] that changes each model in place. *)
Definition each (f : Model.t -> Model.t) (c : t) : t := map f c.

End TodoList.

(** ** The application state *)

(** [Todos] is the global collection; [idCounter] is the framework's counter
    of unique ids, from which a new model draws its [cid]. *)
Record World : Type := mkWorld {
  Todos : TodoList.t;
  idCounter : nat
}.

Definition boot : World := {| Todos := []; idCounter := 0 |}.

(** ** The model class (todos.js, [Todo]) *)

Module Todo.
Import Model.

(** [defaults]: evaluated when a model is constructed, against the global
    collection as it is then. *)
Definition defaults (w : World) : Attrs :=
  {| title := "empty todo...";
     order := TodoList.nextOrder (Todos w);
     done := false;
     createdAt := None;
     modifiedAt := None;
     taskInfo := "" |}.

(** [toggle] *)
Definition toggle (this : Model.t) : Model.t :=
  save {| title' := None; order' := None;
          done' := Some (negb (get done this));
          createdAt' := None; modifiedAt' := None; taskInfo' := None |}
       this.

(** Modelled from the spec: the framework's model constructor is not among the
    sources.  [new Todo(h)]: a fresh identity, and the keys of [h] over the
    defaults. *)
Definition new (h : Hash) (w : World) : Model.t * World :=
  let k := S (idCounter w) in
  ({| cid := k; attributes := extend h (defaults w) |},
   {| Todos := Todos w; idCounter := k |}).

(** Modelled from the spec: Backbone's [Model.destroy] is not among the
    sources.  A destroyed model is removed from its collection. *)
Definition destroy (k : nat) (w : World) : World :=
  {| Todos := TodoList.remove k (Todos w); idCounter := idCounter w |}.

End Todo.

(** A method of the model of identity [k], run in the application state. *)
Definition on_model (k : nat) (f : Model.t -> Model.t) (w : World) : World :=
  {| Todos := TodoList.update k f (Todos w); idCounter := idCounter w |}.

(** Modelled from the spec: Backbone's [Collection.create] is not among the
    sources.  [Todos.create(h)] constructs the model, adds it to the
    collection, saves it, and returns it. *)
Definition Todos_create (h : Model.Hash) (w : World) : Model.t * World :=
  let (m, w1) := Todo.new h w in
  (m, {| Todos := TodoList.add m (Todos w1); idCounter := idCounter w1 |}).

(** Modelled from the spec: Backbone's [Collection.fetch] and the storage
    adapter are not among the sources.  [Todos.fetch()] builds a model for
    each stored record and sorts the collection. *)
Fixpoint load (stored : list Model.Attrs) (k : nat) : list Model.t :=
  match stored with
  | [] => []
  | a :: r => Model.mk (S k) a :: load r (S k)
  end.

Definition Todos_fetch (stored : list Model.Attrs) (w : World) : World :=
  {| Todos := TodoList.sortBy_order (Todos w ++ load stored (idCounter w));
     idCounter := (idCounter w + List.length stored)%nat |}.

(** ** The item view (todos.js, [TodoView])

    A view is bound to one model; [k] is the identity of that model.  What a
    handler reads from the page is an argument: [value] is the text of the
    title box ([this.input.val()]), [taskInfo] the text of the notes area
    ([this.textarea.val()]), [modifiedDate] the text of [new Date()] in UTC.
    A handler that returns a value returns [Some] of it; [None] is
    [undefined]. *)

Module TodoView.
Import Model.

Definition sanitize : string -> string := Sanitizer.sanitize.

(** [toggleDone] *)
Definition toggleDone (k : nat) (w : World) : World :=
  on_model k Todo.toggle w.

(** [clear] *)
Definition clear (k : nat) (w : World) : World := Todo.destroy k w.

(** [close]: [!value] holds of the empty string only. *)
Definition close (k : nat) (value taskInfo modifiedDate : string) (w : World)
  : World :=
  if String.eqb value "" then clear k w
  else
    on_model k
      (save {| title' := Some value;
               order' := None;
               done' := None;
               createdAt' := None;
               modifiedAt' := Some (Some modifiedDate);
               taskInfo' := Some (sanitize taskInfo) |})
      w.

(** The test of the second branch of [updateOnEnter]. *)
Definition alphanumeric_or_space (keyCode : Z) : bool :=
  ((64 <? keyCode) && (keyCode <? 91))
  || ((96 <? keyCode) && (keyCode <? 123))
  || ((47 <? keyCode) && (keyCode <? 58))
  || (keyCode =? 32).

(** [updateOnEnter] *)
Definition updateOnEnter (k : nat) (keyCode : Z)
  (value taskInfo modifiedDate : string) (w : World) : option bool * World :=
  if keyCode =? 13 then (None, close k value taskInfo modifiedDate w)
  else if alphanumeric_or_space keyCode then (Some true, w)
  else (Some false, w).

End TodoView.

(** ** The application view (todos.js, [AppView]) *)

Module AppView.
Import Model.

(** [initialize]: the collection starts empty and is fetched from the
    store. *)
Definition initialize (stored : list Attrs) : World :=
  Todos_fetch stored boot.

(** The statistics [render] computes: [Todos.done().length],
    [Todos.remaining().length], and the state of the "mark all" box,
    [!remaining]. *)
Record Stats : Type := mkStats {
  doneCount : nat;
  remainingCount : nat;
  allChecked : bool
}.

Definition render (w : World) : Stats :=
  let done := List.length (TodoList.done (Todos w)) in
  let remaining := List.length (TodoList.remaining (Todos w)) in
  {| doneCount := done;
     remainingCount := remaining;
     allChecked := (remaining =? 0)%nat |}.

(** The hash [createOnEnter] gives to [Todos.create]. *)
Definition typed (input createdDate : string) : Hash :=
  {| title' := Some input;
     order' := None;
     done' := None;
     createdAt' := Some (Some createdDate);
     modifiedAt' := Some (Some createdDate);
     taskInfo' := None |}.

(** [createOnEnter]: [input] is the text of the new-todo box.  The box is
    emptied afterwards; the page is not part of the state. *)
Definition createOnEnter (keyCode : Z) (input createdDate : string)
  (w : World) : World :=
  if negb (keyCode =? 13) then w
  else if String.eqb input "" then w
  else snd (Todos_create (typed input createdDate) w).

(** [clearCompleted]: [destroy] is invoked on each model of the array
    [Todos.done()] returned before the first removal. *)
Definition clearCompleted (w : World) : bool * World :=
  (false,
   fold_left (fun w' m => Todo.destroy (cid m) w')
     (TodoList.done (Todos w)) w).

(** [toggleAllComplete]: [checked] is the state of the "mark all" box. *)
Definition toggleAllComplete (checked : bool) (w : World) : World :=
  let done := checked in
  {| Todos :=
       TodoList.each
         (save {| title' := None; order' := None; done' := Some done;
                  createdAt' := None; modifiedAt' := None;
                  taskInfo' := None |})
         (Todos w);
     idCounter := idCounter w |}.

End AppView.

(** ** Runs of the application *)

(** The events the two views subscribe to that can change the collection. *)
Inductive event : Type :=
| KeypressNewTodo (keyCode : Z) (input now : string)
| ClickToggle (k : nat)
| ClickDestroy (k : nat)
| KeypressEdit (k : nat) (keyCode : Z) (value taskInfo now : string)
| Blur (k : nat) (value taskInfo now : string)
| ClickClearCompleted
| ClickToggleAll (checked : bool).

Definition handle (e : event) (w : World) : World :=
  match e with
  | KeypressNewTodo keyCode input now =>
      AppView.createOnEnter keyCode input now w
  | ClickToggle k => TodoView.toggleDone k w
  | ClickDestroy k => TodoView.clear k w
  | KeypressEdit k keyCode value taskInfo now =>
      snd (TodoView.updateOnEnter k keyCode value taskInfo now w)
  | Blur k value taskInfo now => TodoView.close k value taskInfo now w
  | ClickClearCompleted => snd (AppView.clearCompleted w)
  | ClickToggleAll checked => AppView.toggleAllComplete checked w
  end.

Definition run (es : list event) (w : World) : World :=
  fold_left (fun w' e => handle e w') es w.

(** The states the application can be in: what [initialize] loads, and what
    an event makes of a reachable state. *)
Inductive reachable : World -> Prop :=
| reach_initialize (stored : list Model.Attrs) :
    reachable (AppView.initialize stored)
| reach_handle (e : event) (w : World) :
    reachable w -> reachable (handle e w).

(** ** Invariants of the collection *)

Definition le_order (a b : Model.t) : Prop :=
  Model.get Model.order a <= Model.get Model.order b.

(** Sorted by [order]. *)
Definition sorted (c : TodoList.t) : Prop := StronglySorted le_order c.

(** No two models of the collection share an identity. *)
Definition distinct (c : TodoList.t) : Prop := NoDup (map Model.cid c).

(** Every identity in use was drawn from the counter. *)
Definition drawn (w : World) : Prop :=
  Forall (fun m => (Model.cid m <= idCounter w)%nat) (Todos w).

Definition well_formed (w : World) : Prop :=
  distinct (Todos w) /\ drawn w /\ sorted (Todos w).


(** The values [nextOrder()] returns over a sequence of creations: one per
    creation, each taken in the state the creation starts from. *)
Fixpoint nextOrder_trace (inputs : list (string * string)) (w : World)
  : list Z :=
  match inputs with
  | [] => []
  | (input, now) :: rest =>
      TodoList.nextOrder (Todos w)
      :: nextOrder_trace rest (AppView.createOnEnter 13 input now w)
  end.


(** A method that keeps the identity and the order of its model. *)
Definition keeps (g : Model.t -> Model.t) : Prop :=
  forall m,
    Model.cid (g m) = Model.cid m
    /\ Model.get Model.order (g m) = Model.get Model.order m.


(** The model [createOnEnter] constructs when it creates one. *)
Definition created (input now : string) (w : World) : Model.t :=
  {| Model.cid := S (idCounter w);
     Model.attributes :=
       Model.extend (AppView.typed input now) (Todo.defaults w) |}.

(** ** Key codes, as the specification names them *)

Definition ascii_letter (keyCode : Z) : Prop :=
  65 <= keyCode <= 90 \/ 97 <= keyCode <= 122.

Definition digit (keyCode : Z) : Prop := 48 <= keyCode <= 57.

Definition space (keyCode : Z) : Prop := keyCode = 32.

Definition text_key (keyCode : Z) : Prop :=
  ascii_letter keyCode \/ digit keyCode \/ space keyCode.

(** ** Sample records and states *)

Definition record (title : string) (order : Z) (done : bool) : Model.Attrs :=
  {| Model.title := title; Model.order := order; Model.done := done;
     Model.createdAt := Some "Mon, 02 Nov 2026 09:00:00 GMT";
     Model.modifiedAt := Some "Mon, 02 Nov 2026 09:00:00 GMT";
     Model.taskInfo := "" |}.

(** One item, "Buy milk". *)
Definition one_item : World :=
  AppView.initialize [record "Buy milk" 1 false].

(** Two done items and one remaining. *)
Definition two_done_one_remaining : World :=
  AppView.initialize
    [record "Buy milk" 1 true; record "Walk dog" 2 false;
     record "Pay rent" 3 true].

(** ** Orders within the safe integers *)

(** Every order of the collection is a safe integer. *)
Definition all_safe (c : TodoList.t) : bool :=
  forallb (fun m => JsNumber.isSafeInteger (Model.get Model.order m)) c.

(** There is room for [n] more creations above the orders [os]: each order
    is at least -(2^53 - 1), and each order plus [n], and [n] itself, is at
    most 2^53. *)
Definition room_for (n : nat) (os : list Z) : bool :=
  (Z.of_nat n <=? JsNumber.two53)
  && forallb
       (fun o =>
          (- (JsNumber.two53 - 1) <=? o)
          && (o + Z.of_nat n <=? JsNumber.two53))
       os.

(** The same for [j] creations and the orders of a collection. *)
Definition Room (j : Z) (c : TodoList.t) : Prop :=
  j <= JsNumber.two53
  /\ Forall
       (fun m =>
          - (JsNumber.two53 - 1) <= Model.get Model.order m
          /\ Model.get Model.order m + j <= JsNumber.two53)
       c.

(** A collection that ends with an item of order 2^53. *)
Definition at_two53 : World :=
  AppView.initialize [record "Buy milk" JsNumber.two53 false].

(** ** Notions the further properties use *)

(** Every character of [s] is the space. *)
Fixpoint spaces_only (s : string) : bool :=
  match s with
  | EmptyString => true
  | String c r => Ascii.eqb c " "%char && spaces_only r
  end.

(** A token as the sanitizer leaves it: not empty, at most 30 long. *)
Definition clean_token (token : string) : Prop :=
  JsString.nonEmpty token = true /\ (String.length token <= 30)%nat.

(** The characters of a list of pieces, one more per piece. *)
Fixpoint weight (pieces : list string) : nat :=
  match pieces with
  | [] => 0%nat
  | p :: ps => (S (String.length p) + weight ps)%nat
  end.

(** Everything of a model but its [done] attribute. *)
Definition but_done (m : Model.t)
  : nat * string * Z * option string * option string * string :=
  (Model.cid m, Model.get Model.title m, Model.get Model.order m,
   Model.get Model.createdAt m, Model.get Model.modifiedAt m,
   Model.get Model.taskInfo m).

(** The orders of the collection are pairwise different and at least 1. *)
Definition orders_distinct_positive (c : TodoList.t) : Prop :=
  NoDup (map (Model.get Model.order) c)
  /\ Forall (fun m => 1 <= Model.get Model.order m) c.

(** * Properties *)

(** ** Numbers: [+ 1] on the safe integers and beyond *)

Section NumberFacts.
Import JsNumber.

Lemma isSafeInteger_spec (n : Z) :
  isSafeInteger n = true <-> - (two53 - 1) <= n <= two53 - 1.
Proof.
  unfold isSafeInteger. rewrite andb_true_iff, !Z.leb_le. tauto.
Qed.

(** On a safe integer, [+ 1] is exact. *)
Lemma plus_one_safe (n : Z) : isSafeInteger n = true -> plus_one n = n + 1.
Proof.
  rewrite isSafeInteger_spec. unfold two53. intros H. unfold plus_one.
  destruct (Z.eq_dec (n + 1) 9007199254740992) as [E|N].
  - rewrite E. reflexivity.
  - unfold nearest, two53.
    destruct (Z.ltb_spec (Z.abs (n + 1)) 9007199254740992); [reflexivity|].
    lia.
Qed.

(** At 2^53 it is not: 2^53 + 1 is no double, and the sum is 2^53 again;
    two further on, the sum skips to the next double. *)
Lemma plus_one_rounds :
  plus_one two53 = two53 /\ plus_one (two53 + 2) = two53 + 4.
Proof. split; reflexivity. Qed.

End NumberFacts.

(** ** Strings: [split], [join], [slice] *)

Section SplitJoin.
Import JsString.
Variable sep : ascii.

Lemma split_not_nil (s : string) : split sep s <> [].
Proof.
  destruct s as [|c r]; simpl; [discriminate|].
  destruct (Ascii.eqb c sep); [discriminate|].
  destruct (split sep r); discriminate.
Qed.

Lemma concat_cons (d x : string) (xs : list string) :
  xs <> [] -> String.concat d (x :: xs) = (x ++ d ++ String.concat d xs)%string.
Proof. destruct xs; [congruence | reflexivity]. Qed.

Lemma concat_push (d : string) (c : ascii) (t : string) (ts : list string) :
  String.concat d (String c t :: ts) = String c (String.concat d (t :: ts)).
Proof. destruct ts; reflexivity. Qed.

(** Joining the pieces with the separator gives the string back. *)
Lemma join_split (s : string) : join (String sep "") (split sep s) = s.
Proof.
  unfold join. induction s as [|c r IH]; simpl; [reflexivity|].
  destruct (Ascii.eqb_spec c sep) as [->|Hc].
  - rewrite concat_cons by apply split_not_nil. simpl. now rewrite IH.
  - destruct (split sep r) as [|t ts] eqn:E.
    + now destruct (split_not_nil r).
    + rewrite concat_push. now rewrite IH.
Qed.

(** No piece holds the separator. *)
Lemma split_free (s : string) : Forall (free_of sep) (split sep s).
Proof.
  induction s as [|c r IH]; simpl.
  - repeat constructor.
  - destruct (Ascii.eqb_spec c sep) as [->|Hc].
    + constructor; [exact I | exact IH].
    + destruct (split sep r) as [|t ts]; [repeat constructor; assumption|].
      inversion IH; subst. constructor; [split; assumption | assumption].
Qed.

Lemma split_free_one (t : string) : free_of sep t -> split sep t = [t].
Proof.
  induction t as [|c r IH]; simpl; [reflexivity|].
  intros [Hc Hr]. destruct (Ascii.eqb_spec c sep); [contradiction|].
  now rewrite (IH Hr).
Qed.

Lemma split_free_app (t rest : string) :
  free_of sep t ->
  split sep (t ++ String sep rest) = t :: split sep rest.
Proof.
  induction t as [|c r IH]; simpl.
  - intros _. now rewrite Ascii.eqb_refl.
  - intros [Hc Hr]. destruct (Ascii.eqb_spec c sep); [contradiction|].
    now rewrite (IH Hr).
Qed.

(** Splitting what was joined from separator-free pieces gives the pieces. *)
Lemma split_join (ts : list string) :
  ts <> [] -> Forall (free_of sep) ts ->
  split sep (join (String sep "") ts) = ts.
Proof.
  unfold join. induction ts as [|t ts IH]; [congruence|].
  intros _ Hf. inversion Hf as [|? ? Ht Hts]; subst.
  destruct ts as [|t' ts'].
  - simpl. now apply split_free_one.
  - rewrite concat_cons by discriminate.
    change (t ++ String sep "" ++ String.concat (String sep "") (t' :: ts'))%string
      with (t ++ String sep (String.concat (String sep "") (t' :: ts')))%string.
    rewrite split_free_app by assumption.
    f_equal. apply IH; [discriminate | assumption].
Qed.

Lemma free_substring (n : nat) (t : string) :
  free_of sep t -> free_of sep (String.substring 0 n t).
Proof.
  revert t. induction n as [|n IH]; intros [|c r]; simpl; auto.
  intros [Hc Hr]. split; auto.
Qed.

End SplitJoin.

Lemma length_substring_0 (n : nat) (t : string) :
  String.length (String.substring 0 n t) = Nat.min n (String.length t).
Proof.
  revert t. induction n as [|n IH]; intros [|c r]; simpl; auto.
Qed.

(** The first [n] characters are a prefix. *)
Lemma substring_0_prefix (n : nat) (t : string) :
  exists rest, t = (String.substring 0 n t ++ rest)%string.
Proof.
  revert t. induction n as [|n IH]; intros [|c r]; simpl.
  - now exists "".
  - now exists (String c r).
  - now exists "".
  - destruct (IH r) as [rest E]. exists rest. now rewrite <- E.
Qed.

Lemma nonEmpty_length (t : string) :
  JsString.nonEmpty t = true <-> (0 < String.length t)%nat.
Proof.
  destruct t; simpl; split; intros; try reflexivity; try lia; try discriminate.
Qed.

(** ** The sanitizer *)

Section SanitizerFacts.
Import JsString Sanitizer.

Lemma visit_truncate (acc : list string) (element : string) :
  visit acc element =
  if nonEmpty element then acc ++ [truncate30 element] else acc.
Proof. reflexivity. Qed.

(** The [forEach] loop is a filter followed by a map. *)
Lemma fold_visit (pieces acc : list string) :
  fold_left visit pieces acc
  = acc ++ map truncate30 (filter nonEmpty pieces).
Proof.
  revert acc. induction pieces as [|p ps IH]; intros acc; simpl.
  - now rewrite app_nil_r.
  - rewrite IH, visit_truncate. destruct (nonEmpty p); simpl.
    + now rewrite <- app_assoc.
    + reflexivity.
Qed.

Lemma sanitize_unfold (taskInfo : string) :
  sanitize taskInfo = sanitize_spec taskInfo.
Proof. unfold sanitize, sanitize_spec, join. now rewrite fold_visit. Qed.

Lemma truncate30_length (t : string) :
  (String.length (truncate30 t) <= 30)%nat.
Proof.
  unfold truncate30. destruct (Nat.ltb_spec 30 (String.length t)).
  - rewrite length_substring_0. lia.
  - assumption.
Qed.

Lemma truncate30_short (t : string) :
  (String.length t <= 30)%nat -> truncate30 t = t.
Proof.
  intros H. unfold truncate30.
  destruct (Nat.ltb_spec 30 (String.length t)); [lia | reflexivity].
Qed.

Lemma truncate30_nonEmpty (t : string) :
  nonEmpty t = true -> nonEmpty (truncate30 t) = true.
Proof.
  rewrite !nonEmpty_length. unfold truncate30.
  destruct (Nat.ltb_spec 30 (String.length t)); [|auto].
  rewrite length_substring_0. lia.
Qed.

Lemma truncate30_free (c : ascii) (t : string) :
  free_of c t -> free_of c (truncate30 t).
Proof.
  unfold truncate30. destruct (30 <? String.length t)%nat; [|auto].
  apply free_substring.
Qed.

Lemma tokens_ok (text : string) :
  Forall (fun t => nonEmpty t = true /\ free_of " "%char t
                   /\ (String.length t <= 30)%nat) (tokens text).
Proof.
  unfold tokens. apply Forall_forall. intros t Ht.
  apply in_map_iff in Ht as (u & <- & Hu).
  apply filter_In in Hu as [Hin Hne].
  pose proof (split_free " "%char text) as Hf.
  rewrite Forall_forall in Hf.
  repeat split.
  - now apply truncate30_nonEmpty.
  - apply truncate30_free. now apply Hf.
  - apply truncate30_length.
Qed.

Lemma tokens_fixed (ts : list string) :
  Forall (fun t => nonEmpty t = true /\ free_of " "%char t
                   /\ (String.length t <= 30)%nat) ts ->
  tokens (String.concat " " ts) = ts.
Proof.
  intros H. unfold tokens. destruct ts as [|t ts'] eqn:E; [reflexivity|].
  rewrite <- E in *.
  assert (Hs : split " "%char (String.concat " " ts) = ts).
  { apply (split_join " "%char); [subst; discriminate|].
    eapply Forall_impl; [|exact H]. simpl. tauto. }
  rewrite Hs. clear Hs E.
  induction H as [|x xs (Hne & _ & Hlen) _ IH]; simpl; [reflexivity|].
  rewrite Hne. simpl. now rewrite truncate30_short, IH.
Qed.

End SanitizerFacts.

(** C1. The sanitizer is the composition the specification describes: its
    result is what one gets by splitting the text at single spaces, dropping
    the empty pieces, cutting every piece longer than 30 characters to its first
    30, and joining what is left with single spaces.  The split is a split at
    spaces: joining its pieces with spaces gives the text back and no piece
    holds a space.  The pieces dropped are exactly the empty ones: the test
    of the code holds of a piece exactly when the piece is not the empty
    string.  The function is total, so there is no error case. *)
Theorem sanitize_splits_drops_truncates_joins :
  forall taskInfo : string,
    Sanitizer.sanitize taskInfo
    = JsString.join " "
        (map Sanitizer.truncate30
           (filter JsString.nonEmpty (JsString.split " "%char taskInfo)))
    /\ Sanitizer.sanitize taskInfo = Sanitizer.sanitize_spec taskInfo
    /\ JsString.join " " (JsString.split " "%char taskInfo) = taskInfo
    /\ Forall (JsString.free_of " "%char) (JsString.split " "%char taskInfo)
    /\ (forall token : string,
          JsString.nonEmpty token = true <-> token <> "")
    /\ (forall token : string,
          In token
            (filter JsString.nonEmpty (JsString.split " "%char taskInfo))
          <-> In token (JsString.split " "%char taskInfo) /\ token <> "")
    /\ (forall token : string,
          (String.length (Sanitizer.truncate30 token)
           = Nat.min 30 (String.length token))
          /\ exists rest : string,
               token = (Sanitizer.truncate30 token ++ rest)%string).
Proof.
  intros taskInfo.
  assert (Hne : forall token : string,
             JsString.nonEmpty token = true <-> token <> "").
  { intros token. unfold JsString.nonEmpty.
    rewrite negb_true_iff. apply String.eqb_neq. }
  split; [apply sanitize_unfold|].
  split; [apply sanitize_unfold|].
  split; [apply (join_split " "%char)|].
  split; [apply split_free|].
  split; [exact Hne|].
  split.
  - intros token. rewrite filter_In, Hne. tauto.
  - intros token. split.
    + unfold Sanitizer.truncate30.
      destruct (Nat.ltb_spec 30 (String.length token)).
      * rewrite length_substring_0. reflexivity.
      * lia.
    + unfold Sanitizer.truncate30.
      destruct (30 <? String.length token)%nat.
      * apply substring_0_prefix.
      * exists "". clear. induction token; simpl; congruence.
Qed.

(** C2. The sanitizer is idempotent. *)
Theorem sanitize_idempotent :
  forall x : string,
    Sanitizer.sanitize (Sanitizer.sanitize x) = Sanitizer.sanitize x.
Proof.
  intros x. rewrite !sanitize_unfold.
  change (Sanitizer.sanitize_spec x) with (String.concat " " (Sanitizer.tokens x)).
  change (Sanitizer.sanitize_spec (String.concat " " (Sanitizer.tokens x)))
    with (String.concat " " (Sanitizer.tokens (String.concat " " (Sanitizer.tokens x)))).
  now rewrite tokens_fixed by apply tokens_ok.
Qed.

(** ** The collection: [last], [nextOrder], the filters *)

Section CollectionFacts.
Import Model TodoList.


Lemma last_In (c : TodoList.t) (m : Model.t) : last c = Some m -> In m c.
Proof.
  induction c as [|x r IH]; simpl; [discriminate|].
  destruct r as [|y r'].
  - intros [= ->]. now left.
  - intros H. right. now apply IH.
Qed.

Lemma last_some (c : TodoList.t) : c <> [] -> exists m, last c = Some m.
Proof.
  induction c as [|x r IH]; [congruence|]. intros _.
  destruct r as [|y r'].
  - now exists x.
  - destruct IH as [m Hm]; [discriminate|]. now exists m.
Qed.

Lemma nextOrder_last (c : TodoList.t) (m : Model.t) :
  last c = Some m -> nextOrder c = JsNumber.plus_one (get order m).
Proof.
  intros H. unfold nextOrder. rewrite H.
  destruct c; [discriminate | reflexivity].
Qed.

Lemma where_done_length (c : TodoList.t) :
  (List.length (where_done true c) + List.length (where_done false c)
   = List.length c)%nat.
Proof.
  unfold where_done.
  induction c as [|m r IH]; simpl; [reflexivity|].
  destruct (get Model.done m); simpl; lia.
Qed.

Lemma where_done_perm (c : TodoList.t) :
  Permutation (where_done true c ++ where_done false c) c.
Proof.
  unfold where_done.
  induction c as [|m r IH]; simpl; [constructor|].
  destruct (get Model.done m); simpl.
  - now constructor.
  - symmetry. apply Permutation_cons_app. now symmetry.
Qed.

Lemma where_done_In (b : bool) (c : TodoList.t) (m : Model.t) :
  In m (where_done b c) <-> In m c /\ get Model.done m = b.
Proof.
  unfold where_done. rewrite filter_In.
  destruct (get Model.done m), b; simpl; intuition congruence.
Qed.

End CollectionFacts.



(** Beyond the safe integers the sum is rounded: after an item of order
    2^53, [nextOrder()] is 2^53 again. *)
Lemma nextOrder_rounds_at_two53 :
  TodoList.nextOrder (Todos at_two53) = JsNumber.two53.
Proof. reflexivity. Qed.

(** C5. In every state of the collection, reachable or not, the number of
    done items plus the number of remaining items is the number of items;
    [done()] holds exactly the items whose flag is set, [remaining()]
    exactly the others, and together they are the collection rearranged.  The
    counts [render] shows add up in the same way. *)
Theorem done_and_remaining_partition :
  forall w : World,
    (List.length (TodoList.done (Todos w))
     + List.length (TodoList.remaining (Todos w))
     = List.length (Todos w))%nat
    /\ (AppView.doneCount (AppView.render w)
        + AppView.remainingCount (AppView.render w)
        = List.length (Todos w))%nat
    /\ Permutation
         (TodoList.done (Todos w) ++ TodoList.remaining (Todos w)) (Todos w)
    /\ (forall m : Model.t,
          In m (TodoList.done (Todos w))
          <-> In m (Todos w) /\ Model.get Model.done m = true)
    /\ (forall m : Model.t,
          In m (TodoList.remaining (Todos w))
          <-> In m (Todos w) /\ Model.get Model.done m = false).
Proof.
  intros w. unfold TodoList.done, TodoList.remaining.
  split; [apply where_done_length|].
  split; [apply where_done_length|].
  split; [apply where_done_perm|].
  split; intros m; apply where_done_In.
Qed.

(** C10. [toggle] negates the [done] attribute of the item and leaves its
    title, order, creation date, modification date and notes as they were;
    run from the view, it changes the toggled item alone. *)
Theorem toggle_changes_only_done :
  forall this : Model.t,
    Model.get Model.done (Todo.toggle this)
    = negb (Model.get Model.done this)
    /\ Model.get Model.title (Todo.toggle this) = Model.get Model.title this
    /\ Model.get Model.order (Todo.toggle this) = Model.get Model.order this
    /\ Model.get Model.createdAt (Todo.toggle this)
       = Model.get Model.createdAt this
    /\ Model.get Model.modifiedAt (Todo.toggle this)
       = Model.get Model.modifiedAt this
    /\ Model.get Model.taskInfo (Todo.toggle this)
       = Model.get Model.taskInfo this
    /\ Model.cid (Todo.toggle this) = Model.cid this
    /\ forall (w : World) (i : nat),
         nth_error (Todos (TodoView.toggleDone (Model.cid this) w)) i
         = option_map
             (fun m => if (Model.cid m =? Model.cid this)%nat
                       then Todo.toggle m else m)
             (nth_error (Todos w) i).
Proof.
  intros this. repeat split.
  intros w i. unfold TodoView.toggleDone, on_model, TodoList.update. simpl.
  apply nth_error_map.
Qed.

(** ** The sort the comparator asks for *)

Section SortFacts.
Import Model TodoList.

Lemma le_order_trans (a b c : Model.t) :
  le_order a b -> le_order b c -> le_order a c.
Proof. unfold le_order. lia. Qed.

Lemma insert_perm (m : Model.t) (c : TodoList.t) :
  Permutation (insert m c) (m :: c).
Proof.
  induction c as [|x r IH]; simpl; [reflexivity|].
  destruct (get order m <=? get order x); [reflexivity|].
  rewrite IH. apply perm_swap.
Qed.

Lemma sortBy_order_perm (c : TodoList.t) : Permutation (sortBy_order c) c.
Proof.
  induction c as [|x r IH]; simpl; [reflexivity|].
  rewrite insert_perm. now constructor.
Qed.

Lemma insert_sorted (m : Model.t) (c : TodoList.t) :
  sorted c -> sorted (insert m c).
Proof.
  unfold sorted. induction 1 as [|x r Hr IH Hx]; simpl.
  - repeat constructor.
  - destruct (Z.leb_spec (get order m) (get order x)) as [Hle|Hgt].
    + constructor; [now constructor|].
      constructor; [exact Hle|].
      eapply Forall_impl; [|exact Hx].
      intros y Hy. now apply le_order_trans with x.
    + constructor; [exact IH|].
      apply Forall_forall. intros y Hy.
      apply (Permutation_in _ (insert_perm m r)) in Hy as [<-|Hy].
      * unfold le_order. lia.
      * rewrite Forall_forall in Hx. now apply Hx.
Qed.

Lemma sortBy_order_sorted (c : TodoList.t) : sorted (sortBy_order c).
Proof.
  induction c as [|x r IH]; simpl.
  - constructor.
  - now apply insert_sorted.
Qed.

(** The sort is stable: a sorted collection is left as it is. *)
Lemma sortBy_order_id (c : TodoList.t) : sorted c -> sortBy_order c = c.
Proof.
  unfold sorted. induction 1 as [|x r Hr IH Hx]; simpl; [reflexivity|].
  rewrite IH. destruct r as [|y r']; simpl; [reflexivity|].
  inversion Hx as [|? ? Hxy _]; subst.
  unfold le_order in Hxy.
  destruct (Z.leb_spec (get order x) (get order y)); [reflexivity | lia].
Qed.

Lemma sorted_snoc (c : TodoList.t) (m : Model.t) :
  sorted c -> Forall (fun x => le_order x m) c -> sorted (c ++ [m]).
Proof.
  unfold sorted. induction 1 as [|x r Hr IH Hx]; intros Hm; simpl.
  - repeat constructor.
  - inversion Hm; subst. constructor; [now apply IH|].
    apply Forall_app. split; [assumption | now constructor].
Qed.

Lemma sorted_last (c : TodoList.t) (m : Model.t) :
  sorted c -> last c = Some m -> Forall (fun x => le_order x m) c.
Proof.
  unfold sorted. induction 1 as [|x r Hr IH Hx]; intros Hl; [constructor|].
  destruct r as [|y r'].
  - simpl in Hl. injection Hl as ->. repeat constructor. unfold le_order. lia.
  - constructor.
    + rewrite Forall_forall in Hx. apply Hx. now apply last_In.
    + now apply IH.
Qed.

(** A model at least as large as every other goes to the end. *)
Lemma add_at_end (c : TodoList.t) (m : Model.t) :
  sorted c -> Forall (fun x => le_order x m) c -> add m c = c ++ [m].
Proof. intros Hs Hm. apply sortBy_order_id. now apply sorted_snoc. Qed.







End SortFacts.

(** ** Identity: methods run on a model, removal *)

Section IdentityFacts.
Import Model TodoList.

Lemma save_keeps (h : Hash) : order' h = None -> keeps (save h).
Proof. intros Ho m. unfold save, get, extend. simpl. now rewrite Ho. Qed.

Lemma toggle_keeps : keeps Todo.toggle.
Proof. intros m. split; reflexivity. Qed.

Lemma at_keeps (k : nat) (f : Model.t -> Model.t) :
  keeps f -> keeps (fun m => if (cid m =? k)%nat then f m else m).
Proof. intros Hf m. destruct (cid m =? k)%nat; [apply Hf | split; reflexivity]. Qed.

Lemma map_keeps_cids (g : Model.t -> Model.t) (c : TodoList.t) :
  keeps g -> map cid (map g c) = map cid c.
Proof.
  intros Hg. rewrite map_map. apply map_ext. intros m. apply Hg.
Qed.

Lemma map_keeps_sorted (g : Model.t -> Model.t) (c : TodoList.t) :
  keeps g -> sorted c -> sorted (map g c).
Proof.
  intros Hg. unfold sorted. induction 1 as [|x r Hr IH Hx]; simpl.
  - constructor.
  - constructor; [exact IH|].
    apply Forall_map. eapply Forall_impl; [|exact Hx].
    intros y. unfold le_order.
    destruct (Hg x) as [_ ->]. now destruct (Hg y) as [_ ->].
Qed.

Lemma getByCid_In (k : nat) (c : TodoList.t) (m : Model.t) :
  getByCid k c = Some m -> In m c /\ cid m = k.
Proof.
  induction c as [|x r IH]; simpl; [discriminate|].
  destruct (Nat.eqb_spec (cid x) k) as [E|N].
  - intros [= ->]. split; [now left | exact E].
  - intros H. destruct (IH H). split; [now right | assumption].
Qed.

Lemma getByCid_None (k : nat) (c : TodoList.t) :
  getByCid k c = None <-> ~ In k (map cid c).
Proof.
  induction c as [|x r IH]; simpl; [tauto|].
  destruct (Nat.eqb_spec (cid x) k) as [E|N].
  - split; [discriminate | intros H; exfalso; apply H; now left].
  - rewrite IH. tauto.
Qed.

Lemma getByCid_update (k : nat) (f : Model.t -> Model.t) (c : TodoList.t) :
  keeps f -> getByCid k (update k f c) = option_map f (getByCid k c).
Proof.
  intros Hf. unfold update. induction c as [|x r IH]; simpl; [reflexivity|].
  destruct (Nat.eqb_spec (cid x) k) as [E|N].
  - destruct (Hf x) as [-> _]. rewrite <- E. now rewrite Nat.eqb_refl.
  - destruct (Nat.eqb_spec (cid x) k); [contradiction | exact IH].
Qed.

(** In a collection of distinct models, removing the model [k] keeps
    exactly the models of another identity. *)
Lemma remove_filter (k : nat) (c : TodoList.t) :
  distinct c -> remove k c = filter (fun m => negb (cid m =? k)%nat) c.
Proof.
  unfold distinct. induction c as [|x r IH]; simpl; [reflexivity|].
  intros Hd. inversion Hd as [|? ? Hx Hr]; subst.
  destruct (Nat.eqb_spec (cid x) k) as [E|N]; simpl.
  - symmetry. apply forallb_filter_id. apply forallb_forall.
    intros y Hy. apply negb_true_iff, Nat.eqb_neq. intros Ey.
    apply Hx. rewrite E, <- Ey. now apply in_map.
  - now rewrite IH.
Qed.

Lemma filter_distinct (p : Model.t -> bool) (c : TodoList.t) :
  distinct c -> distinct (filter p c).
Proof.
  unfold distinct. induction c as [|x r IH]; simpl; [auto|].
  intros Hd. inversion Hd as [|? ? Hx Hr]; subst.
  destruct (p x); simpl; [|auto].
  constructor; [|auto]. intros Hin. apply Hx.
  apply in_map_iff in Hin as (y & Ey & Hy).
  apply filter_In in Hy as [Hy _]. rewrite <- Ey. now apply in_map.
Qed.

Lemma filter_sorted (p : Model.t -> bool) (c : TodoList.t) :
  sorted c -> sorted (filter p c).
Proof.
  unfold sorted. induction 1 as [|x r Hr IH Hx]; simpl; [constructor|].
  destruct (p x); [|exact IH].
  constructor; [exact IH|].
  apply Forall_forall. intros y Hy. apply filter_In in Hy as [Hy _].
  rewrite Forall_forall in Hx. now apply Hx.
Qed.

Lemma filter_and (p q : Model.t -> bool) (c : TodoList.t) :
  filter p (filter q c) = filter (fun m => q m && p m) c.
Proof.
  induction c as [|x r IH]; simpl; [reflexivity|].
  destruct (q x); simpl; [|exact IH].
  destruct (p x); now rewrite IH.
Qed.

(** Removing, one after the other, the models of the array [ms]. *)
Lemma remove_all (ms c : TodoList.t) :
  distinct c ->
  fold_left (fun c' m => remove (cid m) c') ms c
  = filter (fun x => negb (existsb (fun m => (cid x =? cid m)%nat) ms)) c.
Proof.
  revert c. induction ms as [|m ms IH]; intros c Hd; simpl.
  - symmetry. apply forallb_filter_id. now apply forallb_forall.
  - rewrite remove_filter by assumption.
    rewrite IH by now apply filter_distinct.
    rewrite filter_and. apply filter_ext. intros x.
    now rewrite negb_orb.
Qed.

Lemma destroy_all (ms : TodoList.t) (w : World) :
  fold_left (fun w' m => Todo.destroy (cid m) w') ms w
  = {| Todos := fold_left (fun c' m => remove (cid m) c') ms (Todos w);
       idCounter := idCounter w |}.
Proof.
  revert w. induction ms as [|m ms IH]; intros w; simpl.
  - now destruct w.
  - now rewrite IH.
Qed.

(** Among distinct models, a model is in the array [Todos.done()] by its
    identity exactly when it is done. *)
Lemma in_done_by_cid (c : TodoList.t) (x : Model.t) :
  distinct c -> In x c ->
  existsb (fun m => (cid x =? cid m)%nat) (TodoList.done c)
  = get Model.done x.
Proof.
  intros Hd Hx.
  assert (Hsame : forall y, In y c -> cid y = cid x -> y = x).
  { clear -Hd Hx. unfold distinct in Hd.
    induction c as [|z r IH]; [contradiction|].
    simpl in Hd. inversion Hd as [|? ? Hz Hr]; subst.
    intros y [->|Hy] E; destruct Hx as [->|Hx]; auto.
    - exfalso. apply Hz. rewrite E. now apply in_map.
    - exfalso. apply Hz. rewrite <- E. now apply in_map. }
  destruct (get Model.done x) eqn:Dx.
  - apply existsb_exists. exists x. split; [|apply Nat.eqb_refl].
    apply where_done_In. now split.
  - apply not_true_is_false. intros H.
    apply existsb_exists in H as (y & Hy & E).
    apply where_done_In in Hy as [Hy Dy]. apply Nat.eqb_eq in E.
    rewrite (Hsame y Hy (eq_sym E)) in Dy. congruence.
Qed.

End IdentityFacts.

(** ** Every reachable state is well formed *)

Section Reachability.
Import Model TodoList.

Lemma load_cids (stored : list Attrs) (k : nat) :
  map cid (load stored k) = seq (S k) (List.length stored).
Proof.
  revert k. induction stored as [|a r IH]; intros k; simpl; [reflexivity|].
  now rewrite IH.
Qed.

Lemma wf_sortBy (c : TodoList.t) (n : nat) :
  distinct c -> Forall (fun m => (cid m <= n)%nat) c ->
  well_formed {| Todos := sortBy_order c; idCounter := n |}.
Proof.
  intros Hd Hn. pose proof (sortBy_order_perm c) as P.
  repeat split; simpl.
  - unfold distinct in *.
    apply (Permutation_NoDup (Permutation_map cid (Permutation_sym P)) Hd).
  - unfold drawn. simpl.
    apply (Permutation_Forall (Permutation_sym P) Hn).
  - apply sortBy_order_sorted.
Qed.

Lemma wf_initialize (stored : list Attrs) :
  well_formed (AppView.initialize stored).
Proof.
  unfold AppView.initialize, Todos_fetch, boot. simpl.
  apply wf_sortBy.
  - unfold distinct. rewrite load_cids. apply seq_NoDup.
  - apply Forall_forall. intros m Hm.
    apply (in_map cid) in Hm. rewrite load_cids in Hm.
    apply in_seq in Hm. lia.
Qed.

Lemma wf_create (h : Hash) (w : World) :
  well_formed w -> well_formed (snd (Todos_create h w)).
Proof.
  intros (Hd & Hn & _). unfold Todos_create, Todo.new, add. simpl.
  unfold drawn in Hn. apply wf_sortBy.
  - unfold distinct in *. rewrite map_app. simpl.
    apply NoDup_app; [exact Hd | repeat constructor; simpl; tauto |].
    intros k Hk [<-|[]].
    apply in_map_iff in Hk as (m & Em & Hm).
    rewrite Forall_forall in Hn. specialize (Hn m Hm). lia.
  - apply Forall_app. split.
    + eapply Forall_impl; [|exact Hn]. simpl. intros; lia.
    + repeat constructor.
Qed.

Lemma wf_createOnEnter (keyCode : Z) (input now : string) (w : World) :
  well_formed w -> well_formed (AppView.createOnEnter keyCode input now w).
Proof.
  intros H. unfold AppView.createOnEnter.
  destruct (negb (keyCode =? 13)); [exact H|].
  destruct (String.eqb input ""); [exact H|].
  now apply wf_create.
Qed.

Lemma wf_map (g : Model.t -> Model.t) (w : World) :
  keeps g -> well_formed w ->
  well_formed {| Todos := map g (Todos w); idCounter := idCounter w |}.
Proof.
  intros Hg (Hd & Hn & Hs). repeat split; simpl.
  - unfold distinct. now rewrite map_keeps_cids.
  - unfold drawn in *. simpl. apply Forall_map.
    eapply Forall_impl; [|exact Hn]. intros m. simpl.
    now destruct (Hg m) as [-> _].
  - now apply map_keeps_sorted.
Qed.

Lemma wf_on_model (k : nat) (f : Model.t -> Model.t) (w : World) :
  keeps f -> well_formed w -> well_formed (on_model k f w).
Proof. intros Hf. apply wf_map. now apply at_keeps. Qed.

Lemma wf_destroy (k : nat) (w : World) :
  well_formed w -> well_formed (Todo.destroy k w).
Proof.
  intros (Hd & Hn & Hs). unfold Todo.destroy.
  rewrite remove_filter by assumption.
  repeat split; simpl.
  - now apply filter_distinct.
  - unfold drawn in *. simpl. apply Forall_forall. intros m Hm.
    apply filter_In in Hm as [Hm _].
    rewrite Forall_forall in Hn. now apply Hn.
  - now apply filter_sorted.
Qed.

Lemma wf_close (k : nat) (value taskInfo now : string) (w : World) :
  well_formed w -> well_formed (TodoView.close k value taskInfo now w).
Proof.
  intros H. unfold TodoView.close, TodoView.clear.
  destruct (String.eqb value "").
  - now apply wf_destroy.
  - apply wf_on_model; [now apply save_keeps | exact H].
Qed.

Lemma wf_destroy_each (ms : TodoList.t) (w : World) :
  well_formed w ->
  well_formed (fold_left (fun w' m => Todo.destroy (cid m) w') ms w).
Proof.
  revert w. induction ms as [|m ms IH]; intros w H; simpl; [exact H|].
  apply IH. now apply wf_destroy.
Qed.

Lemma wf_handle (e : event) (w : World) :
  well_formed w -> well_formed (handle e w).
Proof.
  intros H. destruct e; simpl.
  - now apply wf_createOnEnter.
  - apply wf_on_model; [apply toggle_keeps | exact H].
  - now apply wf_destroy.
  - unfold TodoView.updateOnEnter.
    destruct (keyCode =? 13); simpl; [now apply wf_close|].
    now destruct (TodoView.alphanumeric_or_space keyCode).
  - now apply wf_close.
  - now apply wf_destroy_each.
  - apply wf_map; [now apply save_keeps | exact H].
Qed.

Lemma reachable_well_formed (w : World) : reachable w -> well_formed w.
Proof.
  induction 1 as [stored | e w _ IH].
  - apply wf_initialize.
  - now apply wf_handle.
Qed.

End Reachability.

(** ** Creation *)

Section CreationFacts.
Import Model TodoList.

Lemma createOnEnter_creates (input now : string) (w : World) :
  JsString.nonEmpty input = true ->
  AppView.createOnEnter 13 input now w
  = {| Todos := add (created input now w) (Todos w);
       idCounter := S (idCounter w) |}.
Proof.
  unfold JsString.nonEmpty, AppView.createOnEnter. simpl.
  intros H. apply negb_true_iff in H. now rewrite H.
Qed.

Lemma created_order (input now : string) (w : World) :
  get order (created input now w) = nextOrder (Todos w).
Proof. reflexivity. Qed.

Lemma room_for_Room (n : nat) (c : TodoList.t) :
  room_for n (map (get order) c) = true <-> Room (Z.of_nat n) c.
Proof.
  unfold room_for, Room. rewrite andb_true_iff, Z.leb_le, forallb_forall.
  rewrite Forall_forall. split; intros [Hn Hc]; (split; [exact Hn|]).
  - intros m Hm. specialize (Hc _ (in_map (get order) _ _ Hm)).
    now rewrite andb_true_iff, !Z.leb_le in Hc.
  - intros o Ho. apply in_map_iff in Ho as (m & <- & Hm).
    rewrite andb_true_iff, !Z.leb_le. now apply Hc.
Qed.

Lemma Room_less (j j' : Z) (c : TodoList.t) :
  j' <= j -> Room j c -> Room j' c.
Proof.
  intros Hj [Hn Hc]. split; [lia|].
  eapply Forall_impl; [|exact Hc]. simpl. intros m. lia.
Qed.

Lemma Room_safe (j : Z) (c : TodoList.t) (m : Model.t) :
  Room j c -> 1 <= j -> In m c ->
  JsNumber.isSafeInteger (get order m) = true.
Proof.
  intros [_ Hc] Hj Hm. rewrite Forall_forall in Hc. specialize (Hc m Hm).
  apply isSafeInteger_spec. lia.
Qed.

(** With room for one more creation, [nextOrder()] is exact and leaves
    the room for the creations after it. *)
Lemma nextOrder_in_room (j : Z) (c : TodoList.t) :
  Room j c -> 1 <= j ->
  - (JsNumber.two53 - 1) <= nextOrder c
  /\ nextOrder c + (j - 1) <= JsNumber.two53
  /\ forall m, last c = Some m -> nextOrder c = get order m + 1.
Proof.
  intros Hroom Hj. destruct c as [|x r].
  - destruct Hroom as [Hn _]. unfold JsNumber.two53 in *.
    change (nextOrder []) with 1.
    split; [lia|]. split; [lia|]. intros m Hm. discriminate.
  - destruct (last_some (x :: r)) as [m Hm]; [discriminate|].
    pose proof (Room_safe _ _ _ Hroom Hj (last_In _ _ Hm)) as Hs.
    rewrite (nextOrder_last _ _ Hm), (plus_one_safe _ Hs).
    destruct Hroom as [_ Hc]. rewrite Forall_forall in Hc.
    specialize (Hc m (last_In _ _ Hm)).
    repeat split; try lia.
    intros m' Hm'. rewrite Hm in Hm'. now injection Hm' as <-.
Qed.

Lemma Room_createOnEnter (j : Z) (input now : string) (w : World) :
  Room j (Todos w) -> 1 <= j -> JsString.nonEmpty input = true ->
  Room (j - 1) (Todos (AppView.createOnEnter 13 input now w)).
Proof.
  intros Hroom Hj Hi. rewrite (createOnEnter_creates _ _ _ Hi). simpl.
  destruct (nextOrder_in_room _ _ Hroom Hj) as (Hlo & Hhi & _).
  destruct Hroom as [Hn Hc]. split; [lia|].
  unfold add.
  apply (Permutation_Forall (Permutation_sym (sortBy_order_perm _))).
  apply Forall_app. split.
  - eapply Forall_impl; [|exact Hc]. simpl. intros m. lia.
  - repeat constructor; rewrite created_order; lia.
Qed.






(** In a sorted collection of safe orders, [nextOrder()] is above every
    order. *)
Lemma nextOrder_above (c : TodoList.t) :
  sorted c -> all_safe c = true ->
  Forall (fun x => get order x < nextOrder c) c.
Proof.
  intros Hs Hsafe. destruct c as [|x r]; [constructor|].
  destruct (last_some (x :: r)) as [m Hm]; [discriminate|].
  unfold all_safe in Hsafe. rewrite forallb_forall in Hsafe.
  rewrite (nextOrder_last _ _ Hm),
    (plus_one_safe _ (Hsafe _ (last_In _ _ Hm))).
  eapply Forall_impl; [|apply (sorted_last _ _ Hs Hm)].
  intros y. unfold le_order. lia.
Qed.

End CreationFacts.



(** Without that room the values repeat: from an item of order 2^53,
    [nextOrder()] returns 2^53 for both of two creations. *)
Lemma nextOrder_repeats_at_two53 :
  nextOrder_trace [("Buy milk", "Mon"); ("Walk dog", "Tue")] at_two53
  = [JsNumber.two53; JsNumber.two53].
Proof. reflexivity. Qed.




(** Beyond the safe integers the new order is not above the largest: after
    an item of order 2^53 the created item has order 2^53 too. *)
Lemma createOnEnter_at_two53 :
  map (Model.get Model.order)
    (Todos (AppView.createOnEnter 13 "Walk dog" "Tue" at_two53))
  = [JsNumber.two53; JsNumber.two53].
Proof. reflexivity. Qed.

(** ** Editing and deleting *)

(** C6. In a reachable state, for the view of an item of the collection:
    committing with an empty title removes the item, and only that item, from
    the collection; committing with a non-empty title keeps every item in its
    place and saves, on that item, the new title, the sanitized notes and the
    date of the change, leaving its order, done flag and creation date. *)
Theorem close_deletes_or_saves :
  forall (w : World) (k : nat) (value taskInfo now : string) (m : Model.t),
    reachable w ->
    TodoList.getByCid k (Todos w) = Some m ->
    (TodoList.getByCid k (Todos (TodoView.close k "" taskInfo now w)) = None
     /\ ~ In m (Todos (TodoView.close k "" taskInfo now w))
     /\ Todos (TodoView.close k "" taskInfo now w)
        = filter (fun x => negb (Model.cid x =? k)%nat) (Todos w)
     /\ S (List.length (Todos (TodoView.close k "" taskInfo now w)))
        = List.length (Todos w))
    /\ (JsString.nonEmpty value = true ->
        exists m' : Model.t,
          TodoList.getByCid k (Todos (TodoView.close k value taskInfo now w))
          = Some m'
          /\ Model.get Model.title m' = value
          /\ Model.get Model.taskInfo m' = Sanitizer.sanitize taskInfo
          /\ Model.get Model.modifiedAt m' = Some now
          /\ Model.get Model.order m' = Model.get Model.order m
          /\ Model.get Model.done m' = Model.get Model.done m
          /\ Model.get Model.createdAt m' = Model.get Model.createdAt m
          /\ map Model.cid (Todos (TodoView.close k value taskInfo now w))
             = map Model.cid (Todos w)
          /\ forall x : Model.t,
               In x (Todos w) -> Model.cid x <> k ->
               In x (Todos (TodoView.close k value taskInfo now w))).
Proof.
  intros w k value taskInfo now m Hr Hm.
  destruct (reachable_well_formed w Hr) as (Hd & Hn & Hs).
  destruct (getByCid_In _ _ _ Hm) as [Hin Hk].
  split.
  - unfold TodoView.close, TodoView.clear, Todo.destroy. simpl.
    rewrite (remove_filter k _ Hd).
    assert (Hgone : forall x,
               In x (filter (fun x => negb (Model.cid x =? k)%nat) (Todos w))
               -> Model.cid x <> k).
    { intros x Hx. apply filter_In in Hx as [_ Hx].
      now apply negb_true_iff, Nat.eqb_neq in Hx. }
    repeat split.
    + apply getByCid_None. intros Hc.
      apply in_map_iff in Hc as (x & Ex & Hx). now apply (Hgone x Hx).
    + intros Hc. now apply (Hgone m Hc).
    + clear -Hd Hin Hk. unfold distinct in Hd.
      induction (Todos w) as [|x r IH]; [contradiction|].
      simpl in *. inversion Hd as [|? ? Hx Hr]; subst.
      destruct (Nat.eqb_spec (Model.cid x) (Model.cid m)) as [E|N]; simpl.
      * f_equal. f_equal. apply forallb_filter_id, forallb_forall.
        intros y Hy. apply negb_true_iff, Nat.eqb_neq. intros Ey.
        apply Hx. rewrite E, <- Ey. now apply in_map.
      * f_equal. apply IH; [exact Hr|].
        destruct Hin as [->|Hin]; [congruence | exact Hin].
  - intros Hv. unfold JsString.nonEmpty in Hv. apply negb_true_iff in Hv.
    unfold TodoView.close. rewrite Hv. unfold on_model. simpl.
    eexists. split.
    + rewrite getByCid_update by now apply save_keeps.
      rewrite Hm. reflexivity.
    + repeat split.
      * unfold TodoList.update. apply map_keeps_cids.
        apply at_keeps. now apply save_keeps.
      * intros x Hx Nx. unfold TodoList.update. apply in_map_iff.
        exists x. split; [|exact Hx].
        destruct (Nat.eqb_spec (Model.cid x) k); [contradiction | reflexivity].
Qed.

(** The one item, committed with an empty title and with a new one. *)
Lemma close_deletes_or_saves_witness :
  TodoList.getByCid 1 (Todos (TodoView.close 1 "" "notes" "Tue" one_item))
  = None
  /\ exists m' : Model.t,
       TodoList.getByCid 1
         (Todos (TodoView.close 1 "Buy bread" " two   words " "Tue" one_item))
       = Some m'
       /\ Model.get Model.title m' = "Buy bread"
       /\ Model.get Model.taskInfo m' = "two words".
Proof.
  destruct (close_deletes_or_saves one_item 1 "Buy bread" " two   words "
              "Tue" (Model.mk 1 (record "Buy milk" 1 false)))
    as [_ Hsave].
  - apply reach_initialize.
  - reflexivity.
  - split; [reflexivity|].
    destruct (Hsave eq_refl) as (m' & Hget & Ht & Hi & _).
    exists m'. repeat split; assumption.
Defined.

(** C7. In a reachable state, after "clear completed" the collection is
    exactly its items whose done flag is false, in their order; the handler
    returns [false].  In particular, with 2 done items and 1 remaining item,
    the single remaining item is what is left. *)
Theorem clearCompleted_retains_remaining :
  forall w : World,
    reachable w ->
    fst (AppView.clearCompleted w) = false
    /\ Todos (snd (AppView.clearCompleted w)) = TodoList.remaining (Todos w)
    /\ (forall m : Model.t,
          In m (Todos (snd (AppView.clearCompleted w)))
          <-> In m (Todos w) /\ Model.get Model.done m = false)
    /\ (List.length (TodoList.done (Todos w)) = 2%nat ->
        List.length (TodoList.remaining (Todos w)) = 1%nat ->
        exists r : Model.t,
          Todos (snd (AppView.clearCompleted w)) = [r]
          /\ In r (Todos w)
          /\ Model.get Model.done r = false).
Proof.
  intros w Hr.
  destruct (reachable_well_formed w Hr) as (Hd & _ & _).
  assert (E : Todos (snd (AppView.clearCompleted w))
              = TodoList.remaining (Todos w)).
  { unfold AppView.clearCompleted. simpl.
    rewrite destroy_all. simpl. rewrite (remove_all _ _ Hd).
    unfold TodoList.remaining, TodoList.where_done.
    apply filter_ext_in. intros x Hx.
    rewrite (in_done_by_cid _ _ Hd Hx).
    now destruct (Model.get Model.done x). }
  split; [reflexivity|]. split; [exact E|]. split.
  - intros m. rewrite E. apply where_done_In.
  - intros _ H1. rewrite E.
    destruct (TodoList.remaining (Todos w)) as [|r [|r' rest]] eqn:R;
      try discriminate.
    exists r. split; [reflexivity|].
    apply (where_done_In false (Todos w) r).
    unfold TodoList.remaining in R. rewrite R. now left.
Qed.

(** The scenario of the specification: 2 done and 1 remaining. *)
Lemma clearCompleted_retains_remaining_witness :
  Todos (snd (AppView.clearCompleted two_done_one_remaining))
  = [Model.mk 2 (record "Walk dog" 2 false)].
Proof.
  destruct (clearCompleted_retains_remaining two_done_one_remaining)
    as (_ & E & _).
  - apply reach_initialize.
  - rewrite E. reflexivity.
Defined.

(** ** Keystrokes in the editing fields *)

(** C9, as stated, fails at the key code 13 (Enter): it is no letter, no
    digit and not the space, yet the handler does not return [false]; it
    commits the edit, here saving the new title, and returns nothing. *)
Lemma updateOnEnter_enter_is_not_ignored :
  ~ text_key 13
  /\ TodoView.updateOnEnter 1 13 "Buy bread" "" "Tue" one_item
     = (None, TodoView.close 1 "Buy bread" "" "Tue" one_item)
  /\ fst (TodoView.updateOnEnter 1 13 "Buy bread" "" "Tue" one_item)
     <> Some false
  /\ snd (TodoView.updateOnEnter 1 13 "Buy bread" "" "Tue" one_item)
     <> one_item.
Proof.
  split; [|split; [|split]].
  - unfold text_key, ascii_letter, digit, space. lia.
  - reflexivity.
  - discriminate.
  - discriminate.
Qed.

(** C9, amended.  For every key code other than 13 (Enter), the handler
    leaves the state as it is and returns [true] when the code is an ASCII
    letter (65-90 or 97-122), a digit (48-57) or the space (32), and [false]
    otherwise.  On Enter it closes the edit and returns nothing. *)
Theorem updateOnEnter_accepts_text_keys_only :
  forall (k : nat) (keyCode : Z) (value taskInfo now : string) (w : World),
    keyCode <> 13 ->
    snd (TodoView.updateOnEnter k keyCode value taskInfo now w) = w
    /\ (text_key keyCode <->
        fst (TodoView.updateOnEnter k keyCode value taskInfo now w)
        = Some true)
    /\ (~ text_key keyCode <->
        fst (TodoView.updateOnEnter k keyCode value taskInfo now w)
        = Some false)
    /\ TodoView.updateOnEnter k 13 value taskInfo now w
       = (None, TodoView.close k value taskInfo now w).
Proof.
  intros k keyCode value taskInfo now w H13.
  unfold TodoView.updateOnEnter.
  destruct (Z.eqb_spec keyCode 13) as [|_]; [contradiction|].
  assert (Hkey : text_key keyCode
                 <-> TodoView.alphanumeric_or_space keyCode = true).
  { unfold text_key, ascii_letter, digit, space,
      TodoView.alphanumeric_or_space.
    rewrite !orb_true_iff, !andb_true_iff, !Z.ltb_lt, Z.eqb_eq. lia. }
  destruct (TodoView.alphanumeric_or_space keyCode); simpl.
  - split; [reflexivity|]. split; [|split; [|reflexivity]].
    + split; [reflexivity | intros _; now apply Hkey].
    + split; [|discriminate].
      intros Hn. exfalso. apply Hn. now apply Hkey.
  - split; [reflexivity|]. split; [|split; [|reflexivity]].
    + split; [|discriminate].
      intros Ht. apply Hkey in Ht. discriminate.
    + split; [reflexivity|].
      intros _ Ht. apply Hkey in Ht. discriminate.
Qed.

(** The letter "a" is accepted, the full stop is not. *)
Lemma updateOnEnter_accepts_text_keys_only_witness :
  fst (TodoView.updateOnEnter 1 97 "Buy" "" "Tue" one_item) = Some true
  /\ fst (TodoView.updateOnEnter 1 46 "Buy" "" "Tue" one_item) = Some false
  /\ snd (TodoView.updateOnEnter 1 46 "Buy" "" "Tue" one_item) = one_item.
Proof.
  destruct (updateOnEnter_accepts_text_keys_only 1 97 "Buy" "" "Tue" one_item)
    as (_ & [Ha _] & _); [lia|].
  destruct (updateOnEnter_accepts_text_keys_only 1 46 "Buy" "" "Tue" one_item)
    as (Hs & _ & [Hb _] & _); [lia|].
  split; [|split].
  - apply Ha. unfold text_key, ascii_letter. lia.
  - apply Hb. unfold text_key, ascii_letter, digit, space. lia.
  - exact Hs.
Defined.

(** ** Further properties the specification lists *)

(** X1. The sanitizer never produces a token longer than 30 characters, and
    its result neither starts nor ends with a space nor holds two spaces in
    a row: split again at spaces, it has no empty piece unless it is the
    empty text. *)
Theorem sanitize_tokens_at_most_30 :
  forall x : string,
    Forall (fun token => (String.length token <= 30)%nat)
      (JsString.split " "%char (Sanitizer.sanitize x))
    /\ (Sanitizer.sanitize x = ""
        \/ Forall (fun token => JsString.nonEmpty token = true)
             (JsString.split " "%char (Sanitizer.sanitize x))).
Proof.
  intros x. rewrite sanitize_unfold. unfold Sanitizer.sanitize_spec.
  pose proof (tokens_ok x) as H.
  destruct (Sanitizer.tokens x) as [|t ts] eqn:E.
  - split; [repeat constructor | now left].
  - rewrite <- E in *.
    assert (Hs : JsString.split " "%char (String.concat " " (Sanitizer.tokens x))
                 = Sanitizer.tokens x).
    { apply (split_join " "%char); [rewrite E; discriminate|].
      eapply Forall_impl; [|exact H]. simpl. tauto. }
    rewrite Hs. split; [|right];
      (eapply Forall_impl; [|exact H]); simpl; tauto.
Qed.

(** X2. In every reachable state the collection is sorted by order and no
    two of its items share an identity. *)
Theorem reachable_sorted_and_distinct :
  forall w : World,
    reachable w ->
    StronglySorted Z.le (map (Model.get Model.order) (Todos w))
    /\ NoDup (map Model.cid (Todos w)).
Proof.
  intros w Hr. destruct (reachable_well_formed w Hr) as (Hd & _ & Hs).
  split; [|exact Hd]. clear Hd Hr.
  unfold sorted in Hs. induction Hs as [|x r Hr' IH Hx]; simpl.
  - constructor.
  - constructor; [exact IH|]. apply Forall_map. exact Hx.
Qed.

(** After "Walk dog" is created and "Buy milk" toggled. *)
Lemma reachable_sorted_and_distinct_witness :
  StronglySorted Z.le
    (map (Model.get Model.order)
       (Todos
          (run [KeypressNewTodo 13 "Walk dog" "Tue"; ClickToggle 1]
             one_item)))
  /\ NoDup
       (map Model.cid
          (Todos
             (run [KeypressNewTodo 13 "Walk dog" "Tue"; ClickToggle 1]
                one_item))).
Proof.
  apply (reachable_sorted_and_distinct
           (run [KeypressNewTodo 13 "Walk dog" "Tue"; ClickToggle 1]
              one_item)).
  apply (reach_handle (ClickToggle 1)).
  apply (reach_handle (KeypressNewTodo 13 "Walk dog" "Tue")).
  apply reach_initialize.
Defined.

(** The scenario of the specification: from an empty store, creating
    "Buy milk" and "Walk dog" gives them the orders 1 and 2; after "Buy milk"
    is toggled there is one done item and one remaining. *)
Theorem scenario_buy_milk_walk_dog :
  map (fun m => (Model.get Model.title m, Model.get Model.order m))
    (Todos
       (run [KeypressNewTodo 13 "Buy milk" "Mon";
             KeypressNewTodo 13 "Walk dog" "Mon"]
          (AppView.initialize [])))
  = [("Buy milk", 1); ("Walk dog", 2)]
  /\ AppView.render
       (run [KeypressNewTodo 13 "Buy milk" "Mon";
             KeypressNewTodo 13 "Walk dog" "Mon";
             ClickToggle 1]
          (AppView.initialize []))
     = {| AppView.doneCount := 1; AppView.remainingCount := 1;
          AppView.allChecked := false |}.
Proof. split; reflexivity. Qed.

(** ** The sanitizer: length, blank texts, fixed points *)

Section SanitizerMore.
Import JsString Sanitizer.

Lemma string_length_app (a b : string) :
  String.length (a ++ b)%string = (String.length a + String.length b)%nat.
Proof. induction a as [|c r IH]; simpl; [reflexivity | now rewrite IH]. Qed.

Lemma concat_weight (ps : list string) :
  ps <> [] -> S (String.length (String.concat " " ps)) = weight ps.
Proof.
  induction ps as [|p ps IH]; [congruence|]. intros _.
  destruct ps as [|q qs].
  - simpl. lia.
  - rewrite concat_cons by discriminate.
    rewrite !string_length_app.
    change (weight (p :: q :: qs))
      with (S (String.length p) + weight (q :: qs))%nat.
    rewrite <- IH by discriminate. simpl. lia.
Qed.

Lemma truncate30_shorter (t : string) :
  (String.length (truncate30 t) <= String.length t)%nat.
Proof.
  unfold truncate30. destruct (30 <? String.length t)%nat; [|lia].
  rewrite length_substring_0. lia.
Qed.

Lemma tokens_weight (pieces : list string) :
  (weight (map truncate30 (filter nonEmpty pieces)) <= weight pieces)%nat.
Proof.
  induction pieces as [|p ps IH]; simpl; [lia|].
  destruct (nonEmpty p); simpl.
  - pose proof (truncate30_shorter p). lia.
  - lia.
Qed.

Lemma tokens_nil_spaces (x : string) :
  filter nonEmpty (split " "%char x) = [] <-> spaces_only x = true.
Proof.
  induction x as [|c r IH]; simpl; [tauto|].
  destruct (Ascii.eqb c " "%char); simpl; [exact IH|].
  split; [|discriminate].
  destruct (split " "%char r); simpl; discriminate.
Qed.

Lemma concat_nonEmpty (ts : list string) :
  ts <> [] -> Forall (fun t => nonEmpty t = true) ts ->
  String.concat " " ts <> "".
Proof.
  destruct ts as [|t ts]; [congruence|]. intros _ H.
  inversion H as [|? ? Ht _]; subst.
  destruct t as [|c r]; [discriminate|].
  rewrite concat_push. discriminate.
Qed.

Lemma clean_tokens_stay (ts : list string) :
  Forall clean_token ts -> map truncate30 (filter nonEmpty ts) = ts.
Proof.
  induction 1 as [|t ts [Hne Hlen] _ IH]; simpl; [reflexivity|].
  rewrite Hne. simpl. now rewrite truncate30_short, IH.
Qed.

End SanitizerMore.

(** X4. The sanitizer never makes a text longer. *)
Theorem sanitize_never_longer :
  forall x : string,
    (String.length (Sanitizer.sanitize x) <= String.length x)%nat.
Proof.
  intros x. rewrite sanitize_unfold. unfold Sanitizer.sanitize_spec.
  destruct (Sanitizer.tokens x) as [|t ts] eqn:E; [simpl; lia|].
  assert (H1 : S (String.length (String.concat " " (t :: ts)))
               = weight (t :: ts))
    by (apply concat_weight; discriminate).
  assert (H2 : S (String.length
                    (String.concat " " (JsString.split " "%char x)))
               = weight (JsString.split " "%char x))
    by (apply concat_weight, split_not_nil).
  pose proof (join_split " "%char x) as J. unfold JsString.join in J.
  rewrite J in H2.
  pose proof (tokens_weight (JsString.split " "%char x)) as W.
  unfold Sanitizer.tokens in E. rewrite E in W. lia.
Qed.

(** X5. The sanitizer gives the empty text exactly on the texts made of
    spaces only (the empty text among them). *)
Theorem sanitize_empty_iff_spaces_only :
  forall x : string,
    Sanitizer.sanitize x = "" <-> spaces_only x = true.
Proof.
  intros x. rewrite sanitize_unfold. unfold Sanitizer.sanitize_spec.
  rewrite <- tokens_nil_spaces. unfold Sanitizer.tokens. split.
  - intros H.
    destruct (filter JsString.nonEmpty (JsString.split " "%char x))
      as [|t ts] eqn:E; [reflexivity|].
    exfalso. revert H. apply concat_nonEmpty; [discriminate|].
    pose proof (tokens_ok x) as Hok. unfold Sanitizer.tokens in Hok.
    rewrite E in Hok. eapply Forall_impl; [|exact Hok]. simpl. tauto.
  - intros ->. reflexivity.
Qed.

(** X6. The texts the sanitizer leaves as they are: the empty text, and the
    texts whose pieces between single spaces are all non-empty and at most
    30 characters long. *)
Theorem sanitize_fixed_points :
  forall x : string,
    Sanitizer.sanitize x = x
    <-> x = "" \/ Forall clean_token (JsString.split " "%char x).
Proof.
  intros x. rewrite sanitize_unfold. unfold Sanitizer.sanitize_spec. split.
  - intros H. pose proof (tokens_ok x) as Hok.
    destruct (Sanitizer.tokens x) as [|t ts] eqn:E.
    + left. now rewrite <- H.
    + right. rewrite <- H, <- E.
      rewrite <- E in Hok.
      replace (JsString.split " "%char
                 (String.concat " " (Sanitizer.tokens x)))
        with (Sanitizer.tokens x).
      * eapply Forall_impl; [|exact Hok]. unfold clean_token. simpl. tauto.
      * symmetry. apply (split_join " "%char); [rewrite E; discriminate|].
        eapply Forall_impl; [|exact Hok]. simpl. tauto.
  - intros [->|H]; [reflexivity|].
    unfold Sanitizer.tokens. rewrite (clean_tokens_stay _ H).
    apply (join_split " "%char).
Qed.

(** ** Toggling all, clearing the completed, toggling twice *)

Section HandlerFacts.
Import Model.

Lemma update_missing (k : nat) (f : Model.t -> Model.t) (c : TodoList.t) :
  TodoList.getByCid k c = None -> TodoList.update k f c = c.
Proof.
  unfold TodoList.update. induction c as [|x r IH]; simpl; [reflexivity|].
  destruct (cid x =? k)%nat; [discriminate|].
  intros H. now rewrite IH.
Qed.

Lemma world_eq (w : World) (c : TodoList.t) :
  c = Todos w -> {| Todos := c; idCounter := idCounter w |} = w.
Proof. intros ->. now destruct w. Qed.

Lemma toggle_toggle (m : Model.t) : Todo.toggle (Todo.toggle m) = m.
Proof.
  destruct m as [k [t o d ca ma ti]]. unfold Todo.toggle, save, get, extend.
  simpl. now rewrite negb_involutive.
Qed.

(** Under distinct identities, "clear completed" leaves [remaining()]. *)
Lemma clearCompleted_remaining (w : World) :
  distinct (Todos w) ->
  Todos (snd (AppView.clearCompleted w)) = TodoList.remaining (Todos w).
Proof.
  intros Hd. unfold AppView.clearCompleted. simpl.
  rewrite destroy_all. simpl. rewrite (remove_all _ _ Hd).
  unfold TodoList.remaining, TodoList.where_done.
  apply filter_ext_in. intros x Hx.
  rewrite (in_done_by_cid _ _ Hd Hx).
  now destruct (get Model.done x).
Qed.

(** With no done item, "clear completed" changes nothing. *)
Lemma clearCompleted_nothing_done (w : World) :
  TodoList.done (Todos w) = [] -> snd (AppView.clearCompleted w) = w.
Proof. intros H. unfold AppView.clearCompleted. simpl. now rewrite H. Qed.

Lemma where_done_twice (b b' : bool) (c : TodoList.t) :
  TodoList.where_done b (TodoList.where_done b' c)
  = if Bool.eqb b b' then TodoList.where_done b' c else [].
Proof.
  unfold TodoList.where_done. rewrite filter_and.
  destruct (Bool.eqb b b') eqn:E.
  - apply Bool.eqb_prop in E. subst. apply filter_ext. intros m.
    now rewrite andb_diag.
  - induction c as [|x r IH]; simpl; [reflexivity|].
    destruct (get Model.done x), b, b'; simpl in *; try discriminate;
      exact IH.
Qed.

(** The hash [{done: b}]. *)
Lemma where_done_all (b b' : bool) (c : TodoList.t) :
  TodoList.where_done b
    (map (save {| title' := None; order' := None; done' := Some b';
                  createdAt' := None; modifiedAt' := None;
                  taskInfo' := None |}) c)
  = if Bool.eqb b' b
    then map (save {| title' := None; order' := None; done' := Some b';
                      createdAt' := None; modifiedAt' := None;
                      taskInfo' := None |}) c
    else [].
Proof.
  unfold TodoList.where_done.
  induction c as [|x r IH]; simpl; [now destruct (Bool.eqb b' b)|].
  rewrite IH. unfold get at 1. simpl.
  now destruct (Bool.eqb b' b).
Qed.

End HandlerFacts.

(** X7. [toggleAllComplete] sets the done flag of every item to the state
    of the "mark all" box and changes nothing else: the items keep their
    identities, positions and other attributes.  Afterwards all items count
    as done, or all as remaining; a second run with the same state changes
    nothing. *)
Theorem toggleAllComplete_sets_every_done :
  forall (checked : bool) (w : World),
    Forall (fun m => Model.get Model.done m = checked)
      (Todos (AppView.toggleAllComplete checked w))
    /\ map but_done (Todos (AppView.toggleAllComplete checked w))
       = map but_done (Todos w)
    /\ AppView.doneCount (AppView.render (AppView.toggleAllComplete checked w))
       = (if checked then List.length (Todos w) else 0%nat)
    /\ AppView.remainingCount
         (AppView.render (AppView.toggleAllComplete checked w))
       = (if checked then 0%nat else List.length (Todos w))
    /\ AppView.toggleAllComplete checked
         (AppView.toggleAllComplete checked w)
       = AppView.toggleAllComplete checked w.
Proof.
  intros checked w. unfold AppView.toggleAllComplete, AppView.render,
    TodoList.done, TodoList.remaining, TodoList.each. simpl.
  rewrite !where_done_all.
  split; [|split; [|split; [|split]]].
  - apply Forall_map. apply Forall_forall. intros m _. reflexivity.
  - rewrite map_map. apply map_ext. intros m. reflexivity.
  - destruct checked; simpl; [apply length_map | reflexivity].
  - destruct checked; simpl; [reflexivity | apply length_map].
  - f_equal. rewrite map_map. apply map_ext. intros m.
    now destruct m as [k [t o d ca ma ti]].
Qed.

(** X8. In a reachable state, marking all items done and then clearing the
    completed ones empties the collection; marking all items not done and
    then clearing removes nothing. *)
Theorem mark_all_then_clear_completed :
  forall w : World,
    reachable w ->
    Todos (snd (AppView.clearCompleted (AppView.toggleAllComplete true w)))
    = []
    /\ snd (AppView.clearCompleted (AppView.toggleAllComplete false w))
       = AppView.toggleAllComplete false w.
Proof.
  intros w Hr. split.
  - rewrite clearCompleted_remaining.
    + unfold AppView.toggleAllComplete, TodoList.remaining, TodoList.each.
      simpl. now rewrite where_done_all.
    + pose proof (reachable_well_formed _
                    (reach_handle (ClickToggleAll true) w Hr)) as (Hd & _).
      exact Hd.
  - apply clearCompleted_nothing_done.
    unfold AppView.toggleAllComplete, TodoList.done, TodoList.each.
    simpl. now rewrite where_done_all.
Qed.

(** From two done items and one remaining. *)
Lemma mark_all_then_clear_completed_witness :
  Todos
    (snd (AppView.clearCompleted
            (AppView.toggleAllComplete true two_done_one_remaining)))
  = []
  /\ snd (AppView.clearCompleted
            (AppView.toggleAllComplete false two_done_one_remaining))
     = AppView.toggleAllComplete false two_done_one_remaining.
Proof.
  apply (mark_all_then_clear_completed two_done_one_remaining).
  apply reach_initialize.
Defined.

(** X9. Toggling an item twice gives the state back. *)
Theorem toggleDone_twice :
  forall (k : nat) (w : World),
    TodoView.toggleDone k (TodoView.toggleDone k w) = w.
Proof.
  intros k w. unfold TodoView.toggleDone, on_model. simpl.
  apply world_eq. unfold TodoList.update. rewrite map_map.
  rewrite <- (map_id (Todos w)) at 2. apply map_ext. intros m.
  destruct (Nat.eqb_spec (Model.cid m) k) as [E|N].
  - change (Model.cid (Todo.toggle m)) with (Model.cid m).
    destruct (Nat.eqb_spec (Model.cid m) k); [|contradiction].
    apply toggle_toggle.
  - destruct (Nat.eqb_spec (Model.cid m) k); [contradiction | reflexivity].
Qed.

(** X10. In a reachable state, "clear completed" leaves no done item and
    keeps the number of remaining items; a second "clear completed" changes
    nothing. *)
Theorem clearCompleted_idempotent :
  forall w : World,
    reachable w ->
    AppView.doneCount (AppView.render (snd (AppView.clearCompleted w)))
    = 0%nat
    /\ AppView.remainingCount
         (AppView.render (snd (AppView.clearCompleted w)))
       = AppView.remainingCount (AppView.render w)
    /\ snd (AppView.clearCompleted (snd (AppView.clearCompleted w)))
       = snd (AppView.clearCompleted w).
Proof.
  intros w Hr. destruct (reachable_well_formed w Hr) as (Hd & _).
  pose proof (clearCompleted_remaining w Hd) as E.
  assert (Hnone : TodoList.done (Todos (snd (AppView.clearCompleted w)))
                  = []).
  { rewrite E. unfold TodoList.done, TodoList.remaining.
    now rewrite where_done_twice. }
  split; [|split].
  - change (List.length
              (TodoList.done (Todos (snd (AppView.clearCompleted w))))
            = 0%nat).
    now rewrite Hnone.
  - change (List.length
              (TodoList.remaining (Todos (snd (AppView.clearCompleted w))))
            = List.length (TodoList.remaining (Todos w))).
    rewrite E. unfold TodoList.remaining. now rewrite where_done_twice.
  - now apply clearCompleted_nothing_done.
Qed.

(** From two done items and one remaining. *)
Lemma clearCompleted_idempotent_witness :
  AppView.doneCount
    (AppView.render (snd (AppView.clearCompleted two_done_one_remaining)))
  = 0%nat
  /\ AppView.remainingCount
       (AppView.render (snd (AppView.clearCompleted two_done_one_remaining)))
     = AppView.remainingCount (AppView.render two_done_one_remaining)
  /\ snd (AppView.clearCompleted
            (snd (AppView.clearCompleted two_done_one_remaining)))
     = snd (AppView.clearCompleted two_done_one_remaining).
Proof.
  apply (clearCompleted_idempotent two_done_one_remaining).
  apply reach_initialize.
Defined.

(** ** Creation, counting and the "mark all" box *)

Section CountingFacts.
Import Model.

Lemma filter_insert_length (p : Model.t -> bool) (m : Model.t)
  (c : TodoList.t) :
  List.length (filter p (TodoList.insert m c))
  = List.length (filter p (m :: c)).
Proof.
  induction c as [|x r IH]; simpl; [reflexivity|].
  destruct (get order m <=? get order x); simpl; [reflexivity|].
  simpl in IH. destruct (p x), (p m); simpl in *; lia.
Qed.

Lemma filter_sortBy_length (p : Model.t -> bool) (c : TodoList.t) :
  List.length (filter p (TodoList.sortBy_order c)) = List.length (filter p c).
Proof.
  induction c as [|x r IH]; simpl; [reflexivity|].
  rewrite filter_insert_length. simpl. destruct (p x); simpl; lia.
Qed.

Lemma none_remaining_all_done (c : TodoList.t) :
  (List.length (TodoList.remaining c) =? 0)%nat = forallb (get Model.done) c.
Proof.
  unfold TodoList.remaining, TodoList.where_done.
  induction c as [|x r IH]; simpl; [reflexivity|].
  destruct (get Model.done x); simpl; [exact IH | reflexivity].
Qed.

(** In a well-formed state of safe orders the created model goes to the
    end. *)
Lemma createOnEnter_appends (input now : string) (w : World) :
  well_formed w -> all_safe (Todos w) = true ->
  JsString.nonEmpty input = true ->
  Todos (AppView.createOnEnter 13 input now w)
  = Todos w ++ [created input now w].
Proof.
  intros (_ & _ & Hs) Hsafe Hi.
  rewrite (createOnEnter_creates _ _ _ Hi). simpl.
  apply add_at_end; [exact Hs|].
  eapply Forall_impl; [|apply (nextOrder_above _ Hs Hsafe)].
  intros x Hx. cbv beta in Hx. unfold le_order.
  rewrite created_order. lia.
Qed.

Lemma sortBy_order_snoc (c : TodoList.t) (m : Model.t) :
  TodoList.sortBy_order (c ++ [m]) = fold_right TodoList.insert [m] c.
Proof. unfold TodoList.sortBy_order. now rewrite fold_right_app. Qed.

Lemma fold_insert_perm (c : TodoList.t) (m : Model.t) :
  Permutation (fold_right TodoList.insert [m] c) (c ++ [m]).
Proof.
  rewrite <- sortBy_order_snoc. apply sortBy_order_perm.
Qed.

(** Inserting below the models of another identity and removing the model
    [k] commute. *)
Lemma remove_insert (k : nat) (x : Model.t) (l : TodoList.t) :
  cid x <> k ->
  Forall (fun z => cid z <> k) (TodoList.remove k l) ->
  (forall y, In y l -> cid y <> k -> le_order x y) ->
  TodoList.remove k (TodoList.insert x l) = x :: TodoList.remove k l.
Proof.
  intros Hx. induction l as [|y l' IH]; simpl; intros Hrest Hle.
  - destruct (Nat.eqb_spec (cid x) k); [contradiction | reflexivity].
  - destruct (Nat.eqb_spec (cid y) k) as [Ey|Ny].
    + destruct (Z.leb_spec (get order x) (get order y)); simpl.
      * destruct (Nat.eqb_spec (cid x) k); [contradiction|].
        now destruct (Nat.eqb_spec (cid y) k).
      * destruct (Nat.eqb_spec (cid y) k); [|contradiction].
        destruct l' as [|z l'']; [reflexivity|]. simpl.
        inversion Hrest as [|? ? Hz _]; subst.
        assert (Hxz : le_order x z) by (apply Hle; [right; now left | exact Hz]).
        unfold le_order in Hxz.
        destruct (Z.leb_spec (get order x) (get order z)); [reflexivity | lia].
    + assert (Hxy : le_order x y) by (apply Hle; [now left | exact Ny]).
      unfold le_order in Hxy.
      destruct (Z.leb_spec (get order x) (get order y)); [|lia]. simpl.
      destruct (Nat.eqb_spec (cid x) k); [contradiction|].
      now destruct (Nat.eqb_spec (cid y) k).
Qed.

(** Adding a model of a fresh identity to a sorted collection and removing
    it again gives the collection back, wherever the sort put the model. *)
Lemma remove_add (k : nat) (c : TodoList.t) (m : Model.t) :
  sorted c -> cid m = k -> Forall (fun z => cid z <> k) c ->
  TodoList.remove k (TodoList.add m c) = c.
Proof.
  intros Hs Hm. unfold TodoList.add. rewrite sortBy_order_snoc.
  unfold sorted in Hs. induction Hs as [|x r Hr IH Hx]; intros Hk; simpl.
  - now rewrite Hm, Nat.eqb_refl.
  - inversion Hk as [|? ? Hxk Hrk]; subst.
    specialize (IH Hrk). rewrite remove_insert.
    + now rewrite IH.
    + exact Hxk.
    + now rewrite IH.
    + intros y Hy Ny.
      apply (Permutation_in _ (fold_insert_perm r m)) in Hy.
      apply in_app_or in Hy as [Hy|[<-|[]]]; [|contradiction].
      rewrite Forall_forall in Hx. now apply Hx.
Qed.

(** The model of an identity no other model has is found by it. *)
Lemma getByCid_unique (k : nat) (l : TodoList.t) (m : Model.t) :
  In m l -> cid m = k -> (forall y, In y l -> cid y = k -> y = m) ->
  TodoList.getByCid k l = Some m.
Proof.
  induction l as [|y l' IH]; simpl; [contradiction|].
  intros Hin Hm Huniq.
  destruct (Nat.eqb_spec (cid y) k) as [E|N].
  - f_equal. apply Huniq; [now left | exact E].
  - destruct Hin as [->|Hin]; [contradiction|].
    apply IH; [exact Hin | exact Hm |].
    intros z Hz. apply Huniq. now right.
Qed.

End CountingFacts.

(** X11. [createOnEnter] changes the state exactly when the key is Enter
    and the input is not empty.  It never removes or changes an item: every
    item of the collection is still there afterwards, the collection grows by
    the one created item or not at all, and since the new item is not done,
    the number of done items is unchanged. *)
Theorem createOnEnter_only_adds :
  forall (keyCode : Z) (input now : string) (w : World),
    (AppView.createOnEnter keyCode input now w = w
     <-> keyCode <> 13 \/ input = "")
    /\ (forall x : Model.t,
          In x (Todos w) ->
          In x (Todos (AppView.createOnEnter keyCode input now w)))
    /\ List.length (Todos (AppView.createOnEnter keyCode input now w))
       = (List.length (Todos w)
          + (if (keyCode =? 13)%Z && JsString.nonEmpty input
             then 1 else 0))%nat
    /\ AppView.doneCount
         (AppView.render (AppView.createOnEnter keyCode input now w))
       = AppView.doneCount (AppView.render w).
Proof.
  intros keyCode input now w.
  destruct (Z.eqb_spec keyCode 13) as [->|N].
  - destruct (JsString.nonEmpty input) eqn:Hi.
    + rewrite (createOnEnter_creates _ _ _ Hi).
      pose proof (sortBy_order_perm (Todos w ++ [created input now w])) as P.
      unfold TodoList.add. cbn [Todos].
      split; [|split; [|split]].
      * split.
        -- intros H. apply (f_equal idCounter) in H. simpl in H. lia.
        -- intros [H | ->]; [congruence | discriminate].
      * intros x Hx. apply (Permutation_in _ (Permutation_sym P)).
        apply in_or_app. now left.
      * rewrite (Permutation_length P), length_app. reflexivity.
      * unfold AppView.render, TodoList.done, TodoList.where_done.
        cbn [AppView.doneCount Todos].
        rewrite filter_sortBy_length, filter_app, length_app. simpl. lia.
    + unfold AppView.createOnEnter. unfold JsString.nonEmpty in Hi.
      apply negb_false_iff in Hi. rewrite Hi. simpl.
      apply String.eqb_eq in Hi.
      repeat split; auto; try lia.
  - unfold AppView.createOnEnter.
    destruct (Z.eqb_spec keyCode 13); [contradiction|]. simpl.
    repeat split; auto; try lia.
Qed.

(** X12. The "mark all" box [render] sets is checked exactly when every
    item is done, so also on the empty collection; after [toggleAllComplete]
    it is in the state the handler read, except that on the empty collection
    it is checked. *)
Theorem render_allChecked_iff_all_done :
  forall (w : World) (checked : bool),
    AppView.allChecked (AppView.render w)
    = forallb (Model.get Model.done) (Todos w)
    /\ AppView.allChecked
         (AppView.render (AppView.toggleAllComplete checked w))
       = checked || (List.length (Todos w) =? 0)%nat.
Proof.
  intros w checked. split.
  - apply none_remaining_all_done.
  - change (AppView.allChecked
              (AppView.render (AppView.toggleAllComplete checked w)))
      with ((List.length
               (TodoList.remaining
                  (Todos (AppView.toggleAllComplete checked w))) =? 0)%nat).
    unfold AppView.toggleAllComplete, TodoList.remaining, TodoList.each.
    simpl. rewrite where_done_all.
    destruct checked; simpl; [reflexivity|].
    now rewrite length_map.
Qed.

(** ** Order numbers over a run *)

Section OrderFacts.
Import Model.

Lemma filter_NoDup_map {B : Type} (f : Model.t -> B) (p : Model.t -> bool)
  (c : TodoList.t) :
  NoDup (map f c) -> NoDup (map f (filter p c)).
Proof.
  induction c as [|x r IH]; simpl; [auto|].
  intros Hd. inversion Hd as [|? ? Hx Hr]; subst.
  destruct (p x); simpl; [|auto].
  constructor; [|auto]. intros Hin. apply Hx.
  apply in_map_iff in Hin as (y & Ey & Hy).
  apply filter_In in Hy as [Hy _]. rewrite <- Ey. now apply in_map.
Qed.

Lemma odp_filter (p : Model.t -> bool) (c : TodoList.t) :
  orders_distinct_positive c -> orders_distinct_positive (filter p c).
Proof.
  intros [Hd Hp]. split.
  - now apply filter_NoDup_map.
  - apply Forall_forall. intros x Hx. apply filter_In in Hx as [Hx _].
    rewrite Forall_forall in Hp. now apply Hp.
Qed.

Lemma odp_map (g : Model.t -> Model.t) (c : TodoList.t) :
  keeps g -> orders_distinct_positive c ->
  orders_distinct_positive (map g c).
Proof.
  intros Hg [Hd Hp]. split.
  - rewrite map_map.
    rewrite (map_ext _ (get order)); [exact Hd|].
    intros m. apply Hg.
  - apply Forall_map. eapply Forall_impl; [|exact Hp].
    intros m Hm. simpl. now destruct (Hg m) as [_ ->].
Qed.

Lemma Room_filter (j : Z) (p : Model.t -> bool) (c : TodoList.t) :
  Room j c -> Room j (filter p c).
Proof.
  intros [Hn Hc]. split; [exact Hn|].
  apply Forall_forall. intros x Hx. apply filter_In in Hx as [Hx _].
  rewrite Forall_forall in Hc. now apply Hc.
Qed.

Lemma Room_map (j : Z) (g : Model.t -> Model.t) (c : TodoList.t) :
  keeps g -> Room j c -> Room j (map g c).
Proof.
  intros Hg [Hn Hc]. split; [exact Hn|].
  apply Forall_map. eapply Forall_impl; [|exact Hc].
  intros m Hm. simpl. now destruct (Hg m) as [_ ->].
Qed.

Lemma Room_all_safe (j : Z) (c : TodoList.t) :
  Room j c -> 1 <= j -> all_safe c = true.
Proof.
  intros Hroom Hj. unfold all_safe. apply forallb_forall.
  intros m Hm. now apply (Room_safe j c).
Qed.

Lemma nextOrder_positive (j : Z) (c : TodoList.t) :
  Room j c -> 1 <= j ->
  Forall (fun m => 1 <= get order m) c -> 1 <= TodoList.nextOrder c.
Proof.
  intros Hroom Hj Hp. destruct c as [|x r]; [reflexivity|].
  destruct (last_some (x :: r)) as [m Hm]; [discriminate|].
  destruct (nextOrder_in_room _ _ Hroom Hj) as (_ & _ & Hlast).
  rewrite (Hlast _ Hm).
  rewrite Forall_forall in Hp. specialize (Hp m (last_In _ _ Hm)). lia.
Qed.

Lemma odp_createOnEnter (j : Z) (keyCode : Z) (input now : string)
  (w : World) :
  well_formed w -> Room j (Todos w) -> 1 <= j ->
  orders_distinct_positive (Todos w) ->
  orders_distinct_positive (Todos (AppView.createOnEnter keyCode input now w)).
Proof.
  intros Hwf Hroom Hj Ho.
  destruct (Z.eqb_spec keyCode 13) as [->|N].
  - destruct (JsString.nonEmpty input) eqn:Hi.
    + pose proof (Room_all_safe _ _ Hroom Hj) as Hsafe.
      rewrite (createOnEnter_appends _ _ _ Hwf Hsafe Hi).
      destruct Hwf as (_ & _ & Hs). destruct Ho as [Hd Hp]. split.
      * rewrite map_app. simpl.
        apply NoDup_app; [exact Hd | repeat constructor; simpl; tauto |].
        intros o Ho [<-|[]].
        apply in_map_iff in Ho as (x & Ex & Hx).
        pose proof (nextOrder_above _ Hs Hsafe) as Ha.
        rewrite Forall_forall in Ha. specialize (Ha x Hx). simpl in Ha.
        rewrite created_order in Ex. lia.
      * apply Forall_app. split; [exact Hp|].
        repeat constructor. rewrite created_order.
        now apply (nextOrder_positive j).
    + unfold AppView.createOnEnter. unfold JsString.nonEmpty in Hi.
      apply negb_false_iff in Hi. now rewrite Hi.
  - unfold AppView.createOnEnter.
    now destruct (Z.eqb_spec keyCode 13); [contradiction|].
Qed.

Lemma Room_createOnEnter_any (j : Z) (keyCode : Z) (input now : string)
  (w : World) :
  Room j (Todos w) -> 1 <= j ->
  Room (j - 1) (Todos (AppView.createOnEnter keyCode input now w)).
Proof.
  intros Hroom Hj.
  destruct (Z.eqb_spec keyCode 13) as [->|N].
  - destruct (JsString.nonEmpty input) eqn:Hi.
    + now apply Room_createOnEnter.
    + unfold AppView.createOnEnter. unfold JsString.nonEmpty in Hi.
      apply negb_false_iff in Hi. rewrite Hi. simpl.
      apply (Room_less j); [lia | exact Hroom].
  - unfold AppView.createOnEnter.
    destruct (Z.eqb_spec keyCode 13); [contradiction|]. simpl.
    apply (Room_less j); [lia | exact Hroom].
Qed.

Lemma odp_destroy (k : nat) (w : World) :
  well_formed w -> orders_distinct_positive (Todos w) ->
  orders_distinct_positive (Todos (Todo.destroy k w)).
Proof.
  intros (Hd & _) Ho. unfold Todo.destroy. simpl.
  rewrite (remove_filter _ _ Hd). now apply odp_filter.
Qed.

Lemma Room_destroy (j : Z) (k : nat) (w : World) :
  well_formed w -> Room j (Todos w) -> Room j (Todos (Todo.destroy k w)).
Proof.
  intros (Hd & _) Hroom. unfold Todo.destroy. simpl.
  rewrite (remove_filter _ _ Hd). now apply Room_filter.
Qed.

Lemma odp_close (k : nat) (value taskInfo now : string) (w : World) :
  well_formed w -> orders_distinct_positive (Todos w) ->
  orders_distinct_positive (Todos (TodoView.close k value taskInfo now w)).
Proof.
  intros Hwf Ho. unfold TodoView.close, TodoView.clear.
  destruct (String.eqb value ""); [now apply odp_destroy|].
  unfold on_model, TodoList.update. simpl.
  apply odp_map; [|exact Ho]. apply at_keeps. now apply save_keeps.
Qed.

Lemma Room_close (j : Z) (k : nat) (value taskInfo now : string)
  (w : World) :
  well_formed w -> Room j (Todos w) ->
  Room j (Todos (TodoView.close k value taskInfo now w)).
Proof.
  intros Hwf Hroom. unfold TodoView.close, TodoView.clear.
  destruct (String.eqb value ""); [now apply Room_destroy|].
  unfold on_model, TodoList.update. simpl.
  apply Room_map; [|exact Hroom]. apply at_keeps. now apply save_keeps.
Qed.

Lemma odp_handle (j : Z) (e : event) (w : World) :
  well_formed w -> Room j (Todos w) -> 1 <= j ->
  orders_distinct_positive (Todos w) ->
  orders_distinct_positive (Todos (handle e w)).
Proof.
  intros Hwf Hroom Hj Ho. destruct e; cbn [handle].
  - now apply (odp_createOnEnter j).
  - unfold TodoView.toggleDone, on_model, TodoList.update. simpl.
    apply odp_map; [|exact Ho]. apply at_keeps, toggle_keeps.
  - now apply odp_destroy.
  - unfold TodoView.updateOnEnter.
    destruct (keyCode =? 13); simpl; [now apply odp_close|].
    now destruct (TodoView.alphanumeric_or_space keyCode).
  - now apply odp_close.
  - destruct Hwf as (Hd & _). rewrite (clearCompleted_remaining _ Hd).
    now apply odp_filter.
  - unfold AppView.toggleAllComplete, TodoList.each. simpl.
    apply odp_map; [now apply save_keeps | exact Ho].
Qed.

Lemma Room_handle (j : Z) (e : event) (w : World) :
  well_formed w -> Room j (Todos w) -> 1 <= j ->
  Room (j - 1) (Todos (handle e w)).
Proof.
  intros Hwf Hroom Hj. destruct e; cbn [handle].
  - now apply Room_createOnEnter_any.
  - unfold TodoView.toggleDone, on_model, TodoList.update. simpl.
    apply Room_map; [apply at_keeps, toggle_keeps|].
    apply (Room_less j); [lia | exact Hroom].
  - apply Room_destroy; [exact Hwf|].
    apply (Room_less j); [lia | exact Hroom].
  - unfold TodoView.updateOnEnter.
    destruct (keyCode =? 13); simpl.
    + apply Room_close; [exact Hwf|].
      apply (Room_less j); [lia | exact Hroom].
    + destruct (TodoView.alphanumeric_or_space keyCode); simpl;
        (apply (Room_less j); [lia | exact Hroom]).
  - apply Room_close; [exact Hwf|].
    apply (Room_less j); [lia | exact Hroom].
  - destruct Hwf as (Hd & _). rewrite (clearCompleted_remaining _ Hd).
    apply Room_filter. apply (Room_less j); [lia | exact Hroom].
  - unfold AppView.toggleAllComplete, TodoList.each. simpl.
    apply Room_map; [now apply save_keeps|].
    apply (Room_less j); [lia | exact Hroom].
Qed.

Lemma odp_run (es : list event) (w : World) :
  well_formed w -> Room (Z.of_nat (List.length es)) (Todos w) ->
  orders_distinct_positive (Todos w) ->
  well_formed (run es w) /\ orders_distinct_positive (Todos (run es w)).
Proof.
  unfold run. revert w.
  induction es as [|e es IH]; intros w Hwf Hroom Ho; simpl fold_left.
  - now split.
  - change (List.length (e :: es)) with (S (List.length es)) in Hroom.
    rewrite Nat2Z.inj_succ in Hroom.
    apply IH.
    + now apply wf_handle.
    + replace (Z.of_nat (List.length es))
        with (Z.succ (Z.of_nat (List.length es)) - 1) by lia.
      apply Room_handle; [exact Hwf | exact Hroom | lia].
    + apply (odp_handle _ _ _ Hwf Hroom); [lia | exact Ho].
Qed.

Lemma load_orders (stored : list Attrs) (k : nat) :
  map (get order) (load stored k) = map order stored.
Proof.
  revert k. induction stored as [|a r IH]; intros k; simpl; [reflexivity|].
  now rewrite IH.
Qed.

Lemma odp_initialize (stored : list Attrs) :
  NoDup (map order stored) -> Forall (fun a => 1 <= order a) stored ->
  orders_distinct_positive (Todos (AppView.initialize stored)).
Proof.
  intros Hd Hp. unfold AppView.initialize, Todos_fetch, boot. simpl.
  pose proof (sortBy_order_perm (load stored 0)) as P. split.
  - apply (Permutation_NoDup
             (Permutation_map (get order) (Permutation_sym P))).
    now rewrite load_orders.
  - apply (Permutation_Forall (Permutation_sym P)).
    apply Forall_forall. intros m Hm.
    apply (in_map (get order)) in Hm. rewrite load_orders in Hm.
    apply in_map_iff in Hm as (a & Ea & Ha).
    rewrite Forall_forall in Hp. specialize (Hp a Ha). lia.
Qed.

Lemma Room_initialize (n : nat) (stored : list Attrs) :
  room_for n (map order stored) = true ->
  Room (Z.of_nat n) (Todos (AppView.initialize stored)).
Proof.
  intros H. rewrite <- (load_orders stored 0) in H.
  apply room_for_Room in H. destruct H as [Hn Hc].
  unfold AppView.initialize, Todos_fetch, boot. simpl.
  split; [exact Hn|].
  apply (Permutation_Forall (Permutation_sym (sortBy_order_perm _)) Hc).
Qed.

Lemma sorted_distinct_strict (c : TodoList.t) :
  sorted c -> NoDup (map (get order) c) ->
  StronglySorted Z.lt (map (get order) c).
Proof.
  unfold sorted. induction 1 as [|x r Hr IH Hx]; simpl; intros Hd.
  - constructor.
  - inversion Hd as [|? ? Hnx Hdr]; subst.
    constructor; [now apply IH|].
    apply Forall_map. apply Forall_forall. intros y Hy.
    rewrite Forall_forall in Hx. specialize (Hx y Hy).
    unfold le_order in Hx.
    assert (get order x <> get order y).
    { intros E. apply Hnx. rewrite E. now apply in_map. }
    lia.
Qed.

End OrderFacts.

(** X3. When the stored records have pairwise different orders, all at
    least 1 (as in the empty store), and there is room within the safe
    integers for as many creations as the run has events (every stored order
    plus the number of events, and that number itself, at most 2^53), then
    after the run the orders in the collection are strictly increasing along
    the collection, so unique within it, and all at least 1. *)
Theorem orders_stay_unique_and_positive :
  forall (stored : list Model.Attrs) (es : list event),
    NoDup (map Model.order stored) ->
    Forall (fun a => 1 <= Model.order a) stored ->
    room_for (List.length es) (map Model.order stored) = true ->
    StronglySorted Z.lt
      (map (Model.get Model.order) (Todos (run es (AppView.initialize stored))))
    /\ Forall (fun m => 1 <= Model.get Model.order m)
         (Todos (run es (AppView.initialize stored))).
Proof.
  intros stored es Hd Hp Hroom.
  destruct (odp_run es (AppView.initialize stored)
              (wf_initialize stored) (Room_initialize _ _ Hroom)
              (odp_initialize stored Hd Hp))
    as [(_ & _ & Hs) [Hn Hpos]].
  split; [now apply sorted_distinct_strict | exact Hpos].
Qed.

(** From the empty store: two creations, a deletion, a creation. *)
Lemma orders_stay_unique_and_positive_witness :
  StronglySorted Z.lt
    (map (Model.get Model.order)
       (Todos
          (run [KeypressNewTodo 13 "Buy milk" "Mon";
                KeypressNewTodo 13 "Walk dog" "Mon";
                ClickDestroy 1;
                KeypressNewTodo 13 "Pay rent" "Tue"]
             (AppView.initialize []))))
  /\ Forall (fun m => 1 <= Model.get Model.order m)
       (Todos
          (run [KeypressNewTodo 13 "Buy milk" "Mon";
                KeypressNewTodo 13 "Walk dog" "Mon";
                ClickDestroy 1;
                KeypressNewTodo 13 "Pay rent" "Tue"]
             (AppView.initialize []))).
Proof.
  apply (orders_stay_unique_and_positive []
           [KeypressNewTodo 13 "Buy milk" "Mon";
            KeypressNewTodo 13 "Walk dog" "Mon";
            ClickDestroy 1;
            KeypressNewTodo 13 "Pay rent" "Tue"]).
  - constructor.
  - constructor.
  - reflexivity.
Defined.

(** Without that room the orders repeat: from a stored order 2^53, two
    creations leave three items of order 2^53. *)
Lemma orders_repeat_at_two53 :
  map (Model.get Model.order)
    (Todos
       (run [KeypressNewTodo 13 "Walk dog" "Mon";
             KeypressNewTodo 13 "Pay rent" "Tue"]
          at_two53))
  = [JsNumber.two53; JsNumber.two53; JsNumber.two53].
Proof. reflexivity. Qed.

(** ** Committing twice, counting a toggle, undoing a creation *)

Section ComposeFacts.
Import Model.

Lemma sanitize_twice (x : string) :
  Sanitizer.sanitize (Sanitizer.sanitize x) = Sanitizer.sanitize x.
Proof.
  rewrite !sanitize_unfold. unfold Sanitizer.sanitize_spec.
  now rewrite tokens_fixed by apply tokens_ok.
Qed.

Lemma update_update (k : nat) (f g : Model.t -> Model.t) (c : TodoList.t) :
  keeps f -> (forall m, g (f m) = f m) ->
  TodoList.update k g (TodoList.update k f c) = TodoList.update k f c.
Proof.
  intros Hf Hgf. unfold TodoList.update. rewrite map_map.
  apply map_ext. intros m.
  destruct (Nat.eqb_spec (cid m) k) as [E|N].
  - destruct (Hf m) as [-> _]. rewrite <- E, Nat.eqb_refl. apply Hgf.
  - now destruct (Nat.eqb_spec (cid m) k).
Qed.

(** Toggling the model [k] of a collection of distinct models moves one item
    between the done and the remaining ones. *)
Lemma toggle_count (b : bool) (k : nat) (c : TodoList.t) (m : Model.t) :
  distinct c -> TodoList.getByCid k c = Some m ->
  (List.length (TodoList.where_done b (TodoList.update k Todo.toggle c))
   + Nat.b2n (Bool.eqb (get done m) b)
   = List.length (TodoList.where_done b c)
     + Nat.b2n (Bool.eqb (negb (get done m)) b))%nat.
Proof.
  unfold distinct. induction c as [|x r IH]; simpl; [discriminate|].
  intros Hd Hm. inversion Hd as [|? ? Hx Hr]; subst.
  destruct (Nat.eqb_spec (cid x) k) as [E|N].
  - injection Hm as <-.
    assert (Hr' : TodoList.getByCid k r = None)
      by (apply getByCid_None; now rewrite <- E).
    change (map (fun m => if (cid m =? k)%nat then Todo.toggle m else m) r)
      with (TodoList.update k Todo.toggle r).
    rewrite (update_missing _ _ _ Hr').
    unfold TodoList.where_done. simpl.
    destruct x as [kx [t o d ca ma ti]]. unfold get. simpl.
    destruct d, b; simpl; lia.
  - specialize (IH Hr Hm). unfold TodoList.where_done in *. simpl.
    change (map (fun m => if (cid m =? k)%nat then Todo.toggle m else m) r)
      with (TodoList.update k Todo.toggle r).
    destruct (Bool.eqb (get done x) b); simpl; lia.
Qed.

End ComposeFacts.

(** X13. Committing an edit with a non-empty title a second time, with
    the same title and date and the notes the first commit stored, changes
    nothing more: the notes are stored sanitized, and sanitizing them again
    gives the same notes. *)
Theorem close_twice :
  forall (w : World) (k : nat) (value taskInfo now : string),
    JsString.nonEmpty value = true ->
    TodoView.close k value (Sanitizer.sanitize taskInfo) now
      (TodoView.close k value taskInfo now w)
    = TodoView.close k value taskInfo now w.
Proof.
  intros w k value taskInfo now Hv.
  unfold JsString.nonEmpty in Hv. apply negb_true_iff in Hv.
  unfold TodoView.close, TodoView.sanitize. rewrite Hv.
  unfold on_model. simpl. f_equal.
  apply update_update; [now apply save_keeps|].
  intros m. unfold Model.save, Model.extend. simpl.
  now rewrite sanitize_twice.
Qed.

(** The one item, committed twice with a new title. *)
Lemma close_twice_witness :
  TodoView.close 1 "Buy bread" (Sanitizer.sanitize " two   words ") "Tue"
    (TodoView.close 1 "Buy bread" " two   words " "Tue" one_item)
  = TodoView.close 1 "Buy bread" " two   words " "Tue" one_item.
Proof.
  apply (close_twice one_item 1 "Buy bread" " two   words " "Tue").
  reflexivity.
Defined.

(** X14. In a reachable state, toggling an item of the collection moves
    exactly one item between the two counts [render] shows: an item that was
    remaining becomes done, an item that was done becomes remaining. *)
Theorem toggleDone_moves_one_count :
  forall (w : World) (k : nat) (m : Model.t),
    reachable w ->
    TodoList.getByCid k (Todos w) = Some m ->
    (AppView.doneCount (AppView.render (TodoView.toggleDone k w))
     + Nat.b2n (Model.get Model.done m)
     = AppView.doneCount (AppView.render w)
       + Nat.b2n (negb (Model.get Model.done m)))%nat
    /\ (AppView.remainingCount (AppView.render (TodoView.toggleDone k w))
        + Nat.b2n (negb (Model.get Model.done m))
        = AppView.remainingCount (AppView.render w)
          + Nat.b2n (Model.get Model.done m))%nat.
Proof.
  intros w k m Hr Hm.
  destruct (reachable_well_formed w Hr) as (Hd & _).
  pose proof (toggle_count true k _ m Hd Hm) as Ht.
  pose proof (toggle_count false k _ m Hd Hm) as Hf.
  split.
  - destruct (Model.get Model.done m); exact Ht.
  - destruct (Model.get Model.done m); exact Hf.
Qed.

(** "Walk dog", not done, is toggled. *)
Lemma toggleDone_moves_one_count_witness :
  (AppView.doneCount
     (AppView.render (TodoView.toggleDone 2 two_done_one_remaining))
   + 0
   = AppView.doneCount (AppView.render two_done_one_remaining) + 1)%nat
  /\ (AppView.remainingCount
        (AppView.render (TodoView.toggleDone 2 two_done_one_remaining))
      + 1
      = AppView.remainingCount (AppView.render two_done_one_remaining)
        + 0)%nat.
Proof.
  apply (toggleDone_moves_one_count two_done_one_remaining 2
           (Model.mk 2 (record "Walk dog" 2 false))).
  - apply reach_initialize.
  - reflexivity.
Defined.

(** X15. In a reachable state, deleting the item just created gives the
    collection back as it was before the creation, and [nextOrder()] is
    again the order that item had: an order number is given out again once
    its item is deleted from the end. *)
Theorem create_then_delete :
  forall (w : World) (input now : string),
    reachable w ->
    JsString.nonEmpty input = true ->
    Todos
      (TodoView.clear (S (idCounter w))
         (AppView.createOnEnter 13 input now w))
    = Todos w
    /\ TodoList.getByCid (S (idCounter w))
         (Todos (AppView.createOnEnter 13 input now w))
       = Some (created input now w)
    /\ TodoList.nextOrder
         (Todos
            (TodoView.clear (S (idCounter w))
               (AppView.createOnEnter 13 input now w)))
       = Model.get Model.order (created input now w).
Proof.
  intros w input now Hr Hi.
  destruct (reachable_well_formed w Hr) as (Hd & Hn & Hs).
  assert (Hfresh : Forall (fun x => Model.cid x <> S (idCounter w))
                     (Todos w)).
  { eapply Forall_impl; [|exact Hn]. simpl. intros; lia. }
  assert (Hback : Todos
                    (TodoView.clear (S (idCounter w))
                       (AppView.createOnEnter 13 input now w))
                  = Todos w).
  { rewrite (createOnEnter_creates _ _ _ Hi).
    unfold TodoView.clear, Todo.destroy. cbn [Todos].
    now apply remove_add. }
  split; [exact Hback|]. split.
  - rewrite (createOnEnter_creates _ _ _ Hi). cbn [Todos].
    pose proof (sortBy_order_perm (Todos w ++ [created input now w])) as P.
    unfold TodoList.add. apply getByCid_unique.
    + apply (Permutation_in _ (Permutation_sym P)).
      apply in_or_app. right. now left.
    + reflexivity.
    + intros y Hy Ey. apply (Permutation_in _ P) in Hy.
      apply in_app_or in Hy as [Hy|[<-|[]]]; [|reflexivity].
      rewrite Forall_forall in Hfresh. now destruct (Hfresh y Hy).
  - rewrite Hback. symmetry. apply created_order.
Qed.

(** "Walk dog" created after "Buy milk" and deleted again. *)
Lemma create_then_delete_witness :
  Todos
    (TodoView.clear 2 (AppView.createOnEnter 13 "Walk dog" "Tue" one_item))
  = Todos one_item.
Proof.
  destruct (create_then_delete one_item "Walk dog" "Tue") as (E & _).
  - apply reach_initialize.
  - reflexivity.
  - exact E.
Defined.
